(** * ITP (Image Transfer Protocol): client/server image viewer

    A shallow embedding of the JavaScript sources

      - [Server/Singleton.js]     sequence and timestamp source,
      - [Server/ITPResponse.js]   response header encoder,
      - [Client/ITPRequest.js]    request encoder,
      - the client session        ([ImageClient]),
      - the server session        ([manageClient], [handleData], ...),

    together with the part of the JavaScript/Node platform these files
    rely on: 32-bit integer operators, [Number.prototype.toString(2)],
    [String.prototype.padStart], typed-array indexing and the UTF-8
    codec behind [Buffer.write] / [Buffer.toString]. *)

From Stdlib Require Import ZArith List Lia Bool.
Import ListNotations.
Local Open Scope Z_scope.

(* ================================================================== *)
(** * The JavaScript platform *)
(* ================================================================== *)

Module JS.

(** ** Numbers and the 32-bit integer operators

    Integral JavaScript numbers are modelled as [Z].  The bitwise
    operators first convert their operands with ToInt32 (ToUint32 for
    a shift count, of which only the low five bits are used) and
    return a signed 32-bit integer. *)

Definition toInt32 (x : Z) : Z := (x + 2 ^ 31) mod 2 ^ 32 - 2 ^ 31.
Definition toUint32 (x : Z) : Z := x mod 2 ^ 32.
Definition toUint8 (x : Z) : Z := x mod 2 ^ 8.

(** [a << b] *)
Definition shl (a b : Z) : Z :=
  toInt32 (Z.shiftl (toInt32 a) (Z.land (toUint32 b) 31)).
(** [a >> b] *)
Definition sar (a b : Z) : Z :=
  Z.shiftr (toInt32 a) (Z.land (toUint32 b) 31).
(** [a | b] *)
Definition bor (a b : Z) : Z := Z.lor (toInt32 a) (toInt32 b).
(** [a & b] *)
Definition band (a b : Z) : Z := Z.land (toInt32 a) (toInt32 b).
(** [~a] *)
Definition bnot (a : Z) : Z := Z.lnot (toInt32 a).
(** [a % b], the remainder has the sign of the dividend. *)
Definition rem (a b : Z) : Z := Z.rem a b.
(** [Math.floor(a / b)] for a positive [b]. *)
Definition floor_div (a b : Z) : Z := a / b.

(** An indexed read may give [undefined], modelled as [None].  Used as
    an operand of a bitwise operator, [undefined] converts to 0. *)
Definition num (v : option Z) : Z :=
  match v with Some x => x | None => 0 end.

(** ** Strings

    A JavaScript string is a sequence of UTF-16 code units. *)

Definition jsstring := list Z.

Definition ch_minus : Z := 45.
Definition ch_dot : Z := 46.
Definition ch_0 : Z := 48.
Definition ch_1 : Z := 49.

Definition length {A} (l : list A) : Z := Z.of_nat (List.length l).

(** [s[i]]: the code unit at index [i], [undefined] out of range. *)
Definition index {A} (s : list A) (i : Z) : option A :=
  if i <? 0 then None else nth_error s (Z.to_nat i).

(** [s[i] === '1'] *)
Definition is_one (c : option Z) : bool :=
  match c with Some x => x =? ch_1 | None => false end.

(** [n.toString(2)] for an integral number: binary digits of the
    magnitude, most significant first, after a minus sign when the
    number is negative. *)
Fixpoint pos_digits (p : positive) : jsstring :=
  match p with
  | xH => [ch_1]
  | xO q => pos_digits q ++ [ch_0]
  | xI q => pos_digits q ++ [ch_1]
  end.

Definition toString2 (n : Z) : jsstring :=
  match n with
  | Z0 => [ch_0]
  | Zpos p => pos_digits p
  | Zneg p => ch_minus :: pos_digits p
  end.

(** [s.padStart(size, c)] with a one-character fill string. *)
Definition padStart (s : jsstring) (size : Z) (c : Z) : jsstring :=
  repeat c (Z.to_nat (size - length s)) ++ s.

(** ** Buffers

    A [Buffer] is a [Uint8Array]: reading out of range gives
    [undefined], writing out of range does nothing, and a stored
    number is reduced modulo 256. *)

Definition Buffer := list Z.

Definition alloc (n : Z) : Buffer := repeat 0 (Z.to_nat n).

Definition get (b : Buffer) (i : Z) : option Z := index b i.

Fixpoint set_nat (b : Buffer) (i : nat) (v : Z) : Buffer :=
  match b, i with
  | [], _ => []
  | _ :: t, O => toUint8 v :: t
  | h :: t, S j => h :: set_nat t j v
  end.

Definition set (b : Buffer) (i : Z) (v : Z) : Buffer :=
  if i <? 0 then b else set_nat b (Z.to_nat i) v.

(** [buf.slice(start, end)] for non-negative bounds, clamped to the
    buffer. *)
Definition slice (b : Buffer) (s e : Z) : Buffer :=
  firstn (Z.to_nat (e - s)) (skipn (Z.to_nat s) b).

(** [buf.slice(start)] *)
Definition slice_from (b : Buffer) (s : Z) : Buffer := skipn (Z.to_nat s) b.

(** [Buffer.concat([a, b])] *)
Definition concat (a b : Buffer) : Buffer := a ++ b.

End JS.

(* ================================================================== *)
(** * Server/Singleton.js *)
(* ================================================================== *)

Module Singleton.

(** The private variables of the module. *)
Record State := mkState { sequenceNum : Z; timeMark : Z }.

(** [let sequenceNum = Math.floor(Math.random() * 999) + 1;
    let timeMark = sequenceNum;] for the random draw [r] in 0..998. *)
Definition initialize (r : Z) : State := mkState (r + 1) (r + 1).

Definition incrementSequence (st : State) : Z * State :=
  let sequenceNum' := JS.rem (sequenceNum st) 999 + 1 in
  (sequenceNum', mkState sequenceNum' (timeMark st)).

Definition incrementTimestamp (st : State) : State :=
  mkState (sequenceNum st)
          (JS.band (timeMark st + 1) (JS.shl 1 32 - 1)).

Definition getSequenceNumber (st : State) : Z * State := incrementSequence st.
Definition getTimestamp (st : State) : Z := timeMark st.

(** [n] successive calls of [getSequenceNumber]: the values returned,
    in order, and the final state. *)
Fixpoint calls (n : nat) (st : State) : list Z * State :=
  match n with
  | O => ([], st)
  | S k =>
      let '(v, st1) := getSequenceNumber st in
      let '(vs, st2) := calls k st1 in
      (v :: vs, st2)
  end.

(** The successor in the cycle, as [incrementSequence] computes it. *)
Definition next (s : Z) : Z := JS.rem s 999 + 1.

(** The value the [n]-th call of [getSequenceNumber] returns, counting
    from 1. *)
Definition call_value (n : nat) (st : State) : Z :=
  fst (getSequenceNumber (snd (calls (n - 1) st))).

(** [n] ticks of the interval timer started by [startUpdating]. *)
Fixpoint ticks (n : nat) (st : State) : State :=
  match n with
  | O => st
  | S k => ticks k (incrementTimestamp st)
  end.

End Singleton.

(* ================================================================== *)
(** * The UTF-8 codec of [Buffer.write] and [Buffer.toString] *)
(* ================================================================== *)

Module Utf8.
Import JS.

Definition is_high (u : Z) : bool := (0xD800 <=? u) && (u <=? 0xDBFF).
Definition is_low (u : Z) : bool := (0xDC00 <=? u) && (u <=? 0xDFFF).

(** The string iterator ([for (let char of str)]): one substring per
    code point, a well-formed surrogate pair staying together. *)
Fixpoint chars (s : jsstring) : list jsstring :=
  match s with
  | [] => []
  | u :: t =>
      match t with
      | v :: t' =>
          if is_high u && is_low v then [u; v] :: chars t'
          else [u] :: chars t
      | [] => [[u]]
      end
  end.

(** [char.charCodeAt(0)]; every substring the iterator yields has a
    first code unit. *)
Definition charCodeAt0 (c : jsstring) : Z :=
  match c with u :: _ => u | [] => 0 end.

(** The scalar value written for one iterated character: a lone
    surrogate is replaced by U+FFFD. *)
Definition scalar (c : jsstring) : Z :=
  match c with
  | [u; v] => 0x10000 + (u - 0xD800) * 0x400 + (v - 0xDC00)
  | [u] => if is_high u || is_low u then 0xFFFD else u
  | _ => 0xFFFD
  end.

Definition encode_scalar (cp : Z) : list Z :=
  if cp <? 0x80 then [cp]
  else if cp <? 0x800 then
    [Z.lor 0xC0 (Z.shiftr cp 6); Z.lor 0x80 (Z.land cp 0x3F)]
  else if cp <? 0x10000 then
    [Z.lor 0xE0 (Z.shiftr cp 12);
     Z.lor 0x80 (Z.land (Z.shiftr cp 6) 0x3F);
     Z.lor 0x80 (Z.land cp 0x3F)]
  else
    [Z.lor 0xF0 (Z.shiftr cp 18);
     Z.lor 0x80 (Z.land (Z.shiftr cp 12) 0x3F);
     Z.lor 0x80 (Z.land (Z.shiftr cp 6) 0x3F);
     Z.lor 0x80 (Z.land cp 0x3F)].

(** Whole characters are written while they fit in [room] bytes. *)
Fixpoint take_fitting (cs : list (list Z)) (room : Z) : list Z :=
  match cs with
  | [] => []
  | c :: r =>
      if JS.length c <=? room
      then c ++ take_fitting r (room - JS.length c)
      else []
  end.

(** The bytes [buf.write(s, offset)] stores in a buffer with [room]
    bytes from [offset] to its end. *)
Definition written (s : jsstring) (room : Z) : list Z :=
  take_fitting (map (fun c => encode_scalar (scalar c)) (chars s)) room.

(** [buf.write(s, offset)] for [0 <= offset <= buf.length], default
    encoding: the buffer after the call and the number of bytes
    written, which the call returns. *)
Definition write (b : Buffer) (s : jsstring) (offset : Z) : Buffer * Z :=
  let bytes := written s (JS.length b - offset) in
  (firstn (Z.to_nat offset) b ++ bytes
     ++ skipn (Z.to_nat offset + List.length bytes) b,
   JS.length bytes).

(** Decoding, one replacement character per maximal ill-formed
    subsequence.  [start] handles a byte met outside a multi-byte
    sequence; [k] decodes the rest of the input from the state
    (bytes needed, code point so far, lower and upper bound of the
    next continuation byte). *)
Definition start (b : Z) (k : Z -> Z -> Z -> Z -> list Z) : list Z :=
  if b <=? 0x7F then b :: k 0 0 0x80 0xBF
  else if (0xC2 <=? b) && (b <=? 0xDF) then k 1 (Z.land b 0x1F) 0x80 0xBF
  else if (0xE0 <=? b) && (b <=? 0xEF) then
    k 2 (Z.land b 0xF) (if b =? 0xE0 then 0xA0 else 0x80)
                       (if b =? 0xED then 0x9F else 0xBF)
  else if (0xF0 <=? b) && (b <=? 0xF4) then
    k 3 (Z.land b 0x7) (if b =? 0xF0 then 0x90 else 0x80)
                       (if b =? 0xF4 then 0x8F else 0xBF)
  else 0xFFFD :: k 0 0 0x80 0xBF.

Fixpoint scalars (bs : list Z) (needed cp lower upper : Z) : list Z :=
  match bs with
  | [] => if needed =? 0 then [] else [0xFFFD]
  | b :: t =>
      if needed =? 0 then start b (scalars t)
      else if (lower <=? b) && (b <=? upper) then
        let cp' := Z.lor (Z.shiftl cp 6) (Z.land b 0x3F) in
        if needed =? 1 then cp' :: scalars t 0 0 0x80 0xBF
        else scalars t (needed - 1) cp' 0x80 0xBF
      else 0xFFFD :: start b (scalars t)
  end.

Definition units (cp : Z) : jsstring :=
  if cp <? 0x10000 then [cp]
  else [0xD800 + Z.shiftr (cp - 0x10000) 10;
        0xDC00 + Z.land (cp - 0x10000) 0x3FF].

(** [buf.toString()] *)
Definition toString (b : Buffer) : jsstring :=
  flat_map units (scalars b 0 0 0x80 0xBF).

End Utf8.

(* ================================================================== *)
(** * Client/ITPRequest.js *)
(* ================================================================== *)

Module ITPRequest.
Import JS.

Record PacketDetails := mkPacketDetails {
  version : Z;
  actionType : Z;
  timeMark : Z;
  imgType : Z;
  imgName : jsstring;
  nameLength : Z
}.

(** The [do { bytes.push(code & 0xFF); code >>= 8; } while (code)]
    loop.  [code >>= 8] leaves a signed 32-bit integer, which reaches
    0 within four rounds exactly when it is not negative; a negative
    one stays negative for ever, which is the [None] the fuel of
    [toByteArr] runs into. *)
Fixpoint decompose (fuel : nat) (code : Z) (bytes : list Z)
  : option (list Z) :=
  match fuel with
  | O => None
  | S f =>
      let bytes' := bytes ++ [band code 0xFF] in
      let code' := sar code 8 in
      if code' =? 0 then Some bytes' else decompose f code' bytes'
  end.

Fixpoint toByteArr_loop (cs : list jsstring) (result : list Z)
  : option (list Z) :=
  match cs with
  | [] => Some result
  | char :: rest =>
      match decompose 4 (Utf8.charCodeAt0 char) [] with
      | Some bytes => toByteArr_loop rest (result ++ rev bytes)
      | None => None
      end
  end.

Definition toByteArr (str : jsstring) : option (list Z) :=
  toByteArr_loop (Utf8.chars str) [].

Definition calculateNameLength (name : jsstring) : option Z :=
  option_map JS.length (toByteArr name).

Definition initialize (version actionType timeMark imgType : Z)
           (imgName : jsstring) : option PacketDetails :=
  option_map (mkPacketDetails version actionType timeMark imgType imgName)
             (calculateNameLength imgName).

Fixpoint insertData_loop (n : nat) (buffer : Buffer) (binaryStr : jsstring)
         (binaryIndex i : Z) : Buffer :=
  match n with
  | O => buffer
  | S k =>
      let byteIdx := floor_div i 8 in
      let bitIdx := 7 - rem i 8 in
      let buffer' :=
        if is_one (index binaryStr binaryIndex)
        then set buffer byteIdx
                 (bor (num (get buffer byteIdx)) (shl 1 bitIdx))
        else set buffer byteIdx
                 (band (num (get buffer byteIdx)) (bnot (shl 1 bitIdx)))
      in insertData_loop k buffer' binaryStr (binaryIndex - 1) (i - 1)
  end.

(** Positions and sizes are integers that numbers hold exactly (see
    [Bits.exact]); the index of the loop then counts down one by one.
    The loop runs from [position + size - 1] down to [position]:
    [size] rounds. *)
Definition insertData (buffer : Buffer) (data position size : Z) : Buffer :=
  let binaryStr := padStart (toString2 data) size ch_0 in
  insertData_loop (Z.to_nat size) buffer binaryStr
                  (JS.length binaryStr - 1) (position + size - 1).

Definition getPacket (p : PacketDetails) : Buffer :=
  let bufferPacket := alloc (12 + nameLength p) in
  let bufferPacket := insertData bufferPacket (version p) 0 4 in
  let bufferPacket := insertData bufferPacket (actionType p) 30 2 in
  let bufferPacket := insertData bufferPacket (timeMark p) 32 32 in
  let bufferPacket := insertData bufferPacket (imgType p) 64 4 in
  let bufferPacket := insertData bufferPacket (nameLength p) 68 28 in
  fst (Utf8.write bufferPacket (imgName p) 12).

(** [init] followed by [getBytePacket], as the client uses them. *)
Definition encodeRequest (version actionType timeMark imgType : Z)
           (imgName : jsstring) : option Buffer :=
  option_map getPacket
             (initialize version actionType timeMark imgType imgName).

End ITPRequest.

(* ================================================================== *)
(** * Server/ITPResponse.js *)
(* ================================================================== *)

Module ITPResponse.
Import JS.

Record ResponseDetails := mkResponseDetails {
  sequence : Z;
  versionNum : Z;
  type : Z;
  time : Z;
  size : Z
}.

Definition responseDetails0 : ResponseDetails := mkResponseDetails 0 0 0 0 0.

Definition configure (sequence version type time size : Z) : ResponseDetails :=
  mkResponseDetails sequence version type time size.

Fixpoint encodeBitSection_loop (n : nat) (buffer : Buffer) (binData : jsstring)
         (binIndex endBitPos : Z) : Buffer :=
  match n with
  | O => buffer
  | S k =>
      let byteIdx := floor_div endBitPos 8 in
      let bitIdx := 7 - rem endBitPos 8 in
      let buffer' :=
        set buffer byteIdx
            (if is_one (index binData binIndex)
             then bor (num (get buffer byteIdx)) (shl 1 bitIdx)
             else band (num (get buffer byteIdx)) (bnot (shl 1 bitIdx)))
      in encodeBitSection_loop k buffer' binData (binIndex - 1) (endBitPos - 1)
  end.

Definition encodeBitSection (buffer : Buffer) (data start length : Z) : Buffer :=
  let endBitPos := start + length - 1 in
  let binData := toString2 data in
  let binIndex := JS.length binData - 1 in
  encodeBitSection_loop (Z.to_nat length) buffer binData binIndex endBitPos.

Definition assemblePacket (r : ResponseDetails) : Buffer :=
  let packetHeader := alloc 12 in
  let packetHeader := encodeBitSection packetHeader (versionNum r) 0 4 in
  let packetHeader := encodeBitSection packetHeader (type r) 4 2 in
  let packetHeader := encodeBitSection packetHeader (sequence r) 6 26 in
  let packetHeader := encodeBitSection packetHeader (time r) 32 32 in
  let packetHeader := encodeBitSection packetHeader (size r) 64 32 in
  packetHeader.

End ITPResponse.

(* ================================================================== *)
(** * The client session (class [ImageClient]) *)
(* ================================================================== *)

Module ImageClient.
Import JS.

Fixpoint extractBits_loop (n : nat) (packet : Buffer) (offset i value : Z) : Z :=
  match n with
  | O => value
  | S k =>
      let byteIndex := floor_div (offset + i) 8 in
      let bitIndex := 7 - rem (offset + i) 8 in
      let bit := band (sar (num (get packet byteIndex)) bitIndex) 1 in
      extractBits_loop k packet offset (i + 1) (bor (shl value 1) bit)
  end.

Definition extractBits (packet : Buffer) (offset length : Z) : Z :=
  extractBits_loop (Z.to_nat length) packet offset 0 0.

Inductive TypeText := Found | NotFound.

(** What the session does to the outside world.  The file system and
    the viewer are external collaborators; their calls are recorded,
    in order, and taken to return normally. *)
Inductive Event :=
| LogPacketBits (header : Buffer)
| LogServerSent (version : Z) (type : TypeText) (sequence timestamp : Z)
| WriteFile (name : jsstring) (contents : Buffer)
| OpenViewer (name : jsstring)
| SocketEnd.

Definition logPacketBits (packet : Buffer) : list Event :=
  [LogPacketBits packet].

Definition displayHeader (data : Buffer) : list Event :=
  let header := slice data 0 12 in
  logPacketBits header.

Definition processHeader (header : Buffer) : list Event :=
  let version := extractBits header 0 4 in
  let type := extractBits header 4 2 in
  let sequence := extractBits header 6 26 in
  let timestamp := extractBits header 32 32 in
  [LogServerSent version (if type =? 1 then Found else NotFound)
                 sequence timestamp].

Definition saveImage (imageName : jsstring) (imageData : Buffer) : list Event :=
  [WriteFile imageName imageData].

(** The ['data'] listener installed by [handleResponse]. *)
Definition handleResponse (imageName : jsstring) (data : Buffer) : list Event :=
  displayHeader data
    ++ (let header := slice data 0 12 in processHeader header)
    ++ saveImage imageName (slice_from data 12)
    ++ [OpenViewer imageName]
    ++ [SocketEnd].


Definition writes_file (e : Event) : bool :=
  match e with WriteFile _ _ => true | _ => false end.




(** What [logPacketBits] prints.  [console.log] ends its line; each
    byte is printed, between two spaces, as
    [packet[i].toString(2).padStart(8, '0')]; a line ends after every
    fourth byte and after the last byte when the count of bytes is not
    a multiple of 4. *)
Definition received_header : jsstring :=
  [73; 84; 80; 32; 112; 97; 99; 107; 101; 116; 32; 104; 101; 97; 100; 101;
   114; 32; 114; 101; 99; 101; 105; 118; 101; 100; 58].

Definition binaryString (byte : Z) : jsstring := padStart (toString2 byte) 8 ch_0.

Fixpoint logPacketBits_loop (bytes : list Z) (i : Z) : jsstring :=
  match bytes with
  | [] => []
  | byte :: rest =>
      [32] ++ binaryString byte ++ [32]
        ++ (if rem (i + 1) 4 =? 0 then [10] else [])
        ++ logPacketBits_loop rest (i + 1)
  end.

Definition logPacketBits_text (packet : Buffer) : jsstring :=
  received_header ++ [10]
    ++ logPacketBits_loop packet 0
    ++ (if rem (JS.length packet) 4 =? 0 then [] else [10]).

End ImageClient.

(* ================================================================== *)
(** * The server session ([manageClient], [handleData], ...) *)
(* ================================================================== *)

Module ClientsHandler.
Import JS.

Record Details := mkDetails {
  version : Z;
  timestamp : Z;
  imageType : Z;
  fileName : jsstring
}.

Inductive Event :=
| LogConnected (sequenceNumber timestamp : Z)
| LogPacket (packet : Buffer)
| LogRequest (sequenceNumber : Z) (details : Details) (extension : jsstring)
| SockWrite (packet : Buffer)
| SockEnd.

(** The state that outlives a call: the private variables of
    [Singleton] and the [responseDetails] object of [ITPResponse]. *)
Record ServerState := mkServerState {
  singleton : Singleton.State;
  responseDetails : ITPResponse.ResponseDetails
}.

(** Computations that read and update the server state and act on the
    socket and the console. *)
Definition M (A : Type) : Type := ServerState -> A * ServerState * list Event.

Definition ret {A} (a : A) : M A := fun s => (a, s, []).
Definition bind {A B} (m : M A) (k : A -> M B) : M B :=
  fun s =>
    let '(a, s1, e1) := m s in
    let '(b, s2, e2) := k a s1 in
    (b, s2, e1 ++ e2).
Definition emit (e : Event) : M unit := fun s => (tt, s, [e]).

Notation "x <- m ;; k" := (bind m (fun x => k))
  (at level 61, m at next level, right associativity).
Notation "m ;;; k" := (bind m (fun _ => k))
  (at level 61, right associativity).

Definition UniqueInstance_getSequenceNumber : M Z :=
  fun s =>
    let '(n, st) := Singleton.getSequenceNumber (singleton s) in
    (n, mkServerState st (responseDetails s), []).
Definition UniqueInstance_getTimestamp : M Z :=
  fun s => (Singleton.getTimestamp (singleton s), s, []).
Definition ResponseHandler_init (sequence version type time size : Z) : M unit :=
  fun s => (tt, mkServerState (singleton s)
                  (ITPResponse.configure sequence version type time size), []).
Definition ResponseHandler_getPacket : M Buffer :=
  fun s => (ITPResponse.assemblePacket (responseDetails s), s, []).

Fixpoint extractDataBits_loop (n : nat) (packet : Buffer) (offset i value : Z) : Z :=
  match n with
  | O => value
  | S k =>
      let byteIdx := floor_div (offset + i) 8 in
      let bitIdx := 7 - rem (offset + i) 8 in
      let bit := band (sar (num (get packet byteIdx)) bitIdx) 1 in
      extractDataBits_loop k packet offset (i + 1) (bor (shl value 1) bit)
  end.

Definition extractDataBits (packet : Buffer) (offset len : Z) : Z :=
  extractDataBits_loop (Z.to_nat len) packet offset 0 0.

Definition getFileName (data : Buffer) : jsstring :=
  let nameSize := extractDataBits data 68 28 in
  Utf8.toString (slice data 12 (12 + nameSize)).

Definition extractDetails (data : Buffer) : Details :=
  mkDetails (extractDataBits data 0 4)
            (extractDataBits data 32 32)
            (extractDataBits data 64 4)
            (getFileName data).

(** String literals, as code units. *)
Definition PNG : jsstring := [80; 78; 71].
Definition BMP : jsstring := [66; 77; 80].
Definition TIFF : jsstring := [84; 73; 70; 70].
Definition JPEG : jsstring := [74; 80; 69; 71].
Definition GIF : jsstring := [71; 73; 70].
Definition RAW : jsstring := [82; 65; 87].
Definition unknown : jsstring := [117; 110; 107; 110; 111; 119; 110].
Definition images : jsstring := [105; 109; 97; 103; 101; 115].

Definition mapTypeToExtension (type : Z) : jsstring :=
  match type with
  | 1 => PNG
  | 2 => BMP
  | 3 => TIFF
  | 4 => JPEG
  | 5 => GIF
  | 15 => RAW
  | _ => unknown
  end.

Record Host := mkHost {
  dirname : jsstring;
  path_join : list jsstring -> jsstring;
  existsSync : jsstring -> bool;
  readFileSync : jsstring -> Buffer
}.


(** A host on which every path is a file of three bytes. *)
Definition any_image : Host :=
  mkHost [] (@List.concat Z) (fun _ => true) (fun _ => [1; 2; 3]).

Section Session.

(** The file system and path library of the host, external to the
    protocol: [__dirname], [path.join], [fs.existsSync] and
    [fs.readFileSync] (taken to return the file's bytes). *)
Variable host : Host.

Definition constructFilePath (fileName : jsstring) (imageType : Z) : jsstring :=
  let extension := mapTypeToExtension imageType in
  path_join host [dirname host; images; fileName ++ [ch_dot] ++ extension].

(** [imageData] is a buffer or [null]; a buffer is truthy even when
    it is empty. *)
Definition preparePacket (imageData : option Buffer)
           (version timestamp responseType : Z) : M Buffer :=
  sequenceNumber <- UniqueInstance_getSequenceNumber ;;
  let size := match imageData with
              | Some d => JS.length d
              | None => 0
              end in
  ResponseHandler_init sequenceNumber version responseType timestamp size ;;;
  header <- ResponseHandler_getPacket ;;
  ret (match imageData with
       | Some d => concat header d
       | None => header
       end).

Definition sendImageResponse (filePath : jsstring) (d : Details) : M unit :=
  let imageData := readFileSync host filePath in
  packet <- preparePacket (Some imageData) (version d) (timestamp d) 1 ;;
  emit (SockWrite packet).

Definition sendErrorResponse (d : Details) : M unit :=
  packet <- preparePacket None (version d) (timestamp d) 2 ;;
  emit (SockWrite packet).

Definition logPacketDetails (d : Details) (originalSequenceNumber : Z) : M unit :=
  emit (LogRequest originalSequenceNumber d (mapTypeToExtension (imageType d))).

Definition logBinaryPacketHeader (packet : Buffer) : M unit :=
  emit (LogPacket packet).

Definition handleData (incomingData : Buffer) (originalSequenceNumber : Z) : M unit :=
  let details := extractDetails incomingData in
  logPacketDetails details originalSequenceNumber ;;;
  let filePath := constructFilePath (fileName details) (imageType details) in
  (if existsSync host filePath
   then sendImageResponse filePath details
   else sendErrorResponse details) ;;;
  emit SockEnd.

(** [manageClient] up to the registration of its listeners; the
    number it draws is the one its closures keep.  (The assignment to
    [exports.getSequenceNumber] further down the file is overwritten by
    [module.exports] and never called; it has no counterpart here.) *)
Definition manageClient : M Z :=
  sequenceNumber <- UniqueInstance_getSequenceNumber ;;
  ts <- UniqueInstance_getTimestamp ;;
  emit (LogConnected sequenceNumber ts) ;;;
  let originalSequenceNumber := sequenceNumber in
  ret originalSequenceNumber.

(** The ['data'] listener of [manageClient]. *)
Definition onData (originalSequenceNumber : Z) (incomingData : Buffer) : M unit :=
  logBinaryPacketHeader incomingData ;;;
  handleData incomingData originalSequenceNumber.

(** The path a request resolves to. *)
Definition requestedPath (data : Buffer) : jsstring :=
  constructFilePath (fileName (extractDetails data))
                    (imageType (extractDetails data)).

(** The response details a request is answered with, from the state
    it meets, and the payload that follows the header. *)
Definition answer (st : ServerState) (data : Buffer)
  : ITPResponse.ResponseDetails :=
  let d := extractDetails data in
  let s := Singleton.next (Singleton.sequenceNum (singleton st)) in
  if existsSync host (requestedPath data)
  then ITPResponse.configure s (version d) 1 (timestamp d)
                             (JS.length (readFileSync host (requestedPath data)))
  else ITPResponse.configure s (version d) 2 (timestamp d) 0.

Definition payload (data : Buffer) : Buffer :=
  if existsSync host (requestedPath data)
  then readFileSync host (requestedPath data) else [].

(** One exchange: a connection is accepted and its request arrives
    in one delivery. *)
Definition exchange (incomingData : Buffer) : M Z :=
  originalSequenceNumber <- manageClient ;;
  onData originalSequenceNumber incomingData ;;;
  ret originalSequenceNumber.

End Session.

(** The packets written to the socket, in order. *)
Fixpoint writes (es : list Event) : list Buffer :=
  match es with
  | [] => []
  | SockWrite p :: r => p :: writes r
  | _ :: r => writes r
  end.

Definition events {A} (r : A * ServerState * list Event) : list Event := snd r.
Definition final {A} (r : A * ServerState * list Event) : ServerState := snd (fst r).
Definition result {A} (r : A * ServerState * list Event) : A := fst (fst r).



(** ** The listener when reading the file can fail

    [fs.readFileSync] throws on a path that [fs.existsSync] accepts but
    that cannot be read as a file (a directory, a file without read
    permission, a file too large for a buffer).  Nothing in the
    listener catches: the exception leaves [sendImageResponse] before
    [preparePacket] is called, and leaves [handleData] before
    [sock.end()].  [T] is [M] with that outcome: [None] for a
    computation an exception left. *)
Definition T (A : Type) : Type :=
  ServerState -> option A * ServerState * list Event.

Definition lift {A} (m : M A) : T A :=
  fun s => let '(a, s1, e) := m s in (Some a, s1, e).

Definition throw {A} : T A := fun s => (None, s, []).

Definition bindT {A B} (m : T A) (k : A -> T B) : T B :=
  fun s =>
    let '(a, s1, e1) := m s in
    match a with
    | Some x => let '(b, s2, e2) := k x s1 in (b, s2, e1 ++ e2)
    | None => (None, s1, e1)
    end.

Section Throwing.

(** [throws] tells the paths on which [fs.readFileSync] throws; on the
    others it returns what [readFileSync host] gives. *)
Variable host : Host.
Variable throws : jsstring -> bool.

Definition sendImageResponse_exn (filePath : jsstring) (d : Details) : T unit :=
  if throws filePath then throw
  else lift (sendImageResponse host filePath d).

Definition handleData_exn (incomingData : Buffer) (originalSequenceNumber : Z)
  : T unit :=
  let details := extractDetails incomingData in
  bindT (lift (logPacketDetails details originalSequenceNumber)) (fun _ =>
  let filePath := constructFilePath host (fileName details) (imageType details) in
  bindT (if existsSync host filePath
         then sendImageResponse_exn filePath details
         else lift (sendErrorResponse details)) (fun _ =>
  lift (emit SockEnd))).

(** The ['data'] listener of [manageClient]. *)
Definition onData_exn (originalSequenceNumber : Z) (incomingData : Buffer)
  : T unit :=
  bindT (lift (logBinaryPacketHeader incomingData)) (fun _ =>
  handleData_exn incomingData originalSequenceNumber).

End Throwing.

(** What [logBinaryPacketHeader] prints: an empty [console.log('\n')],
    the title line, then one line per group of four bytes, each byte
    of the packet followed by a space. *)
Definition received_title : jsstring :=
  [73; 84; 80; 32; 112; 97; 99; 107; 101; 116; 32; 114; 101; 99; 101; 105;
   118; 101; 100; 58].

Definition logBinaryPacketHeader_row (packet : Buffer) (i : Z) : jsstring :=
  flat_map (fun j =>
              if i + j <? JS.length packet
              then padStart (toString2 (num (get packet (i + j)))) 8 ch_0 ++ [32]
              else [])
           [0; 1; 2; 3]
    ++ [10].

(** The outer loop, [i] growing by 4 while it is below the length. *)
Fixpoint logBinaryPacketHeader_loop (fuel : nat) (packet : Buffer) (i : Z)
  : jsstring :=
  match fuel with
  | O => []
  | S f =>
      if i <? JS.length packet
      then logBinaryPacketHeader_row packet i
             ++ logBinaryPacketHeader_loop f packet (i + 4)
      else []
  end.

Definition logBinaryPacketHeader_text (packet : Buffer) : jsstring :=
  [10; 10] ++ received_title ++ [10]
    ++ logBinaryPacketHeader_loop (List.length packet) packet 0.

End ClientsHandler.

(* ================================================================== *)
(** * The bit view of a buffer *)
(* ================================================================== *)

Module Bits.
Import JS.

(** Bit [j] of a buffer, counted from the most significant bit of
    byte 0. *)
Definition bitAt (b : Buffer) (j : Z) : bool :=
  Z.testbit (num (get b (j / 8))) (7 - j mod 8).

(** The unsigned number held, most significant bit first, by the
    [width] bits from [offset] on. *)
Fixpoint field_nat (b : Buffer) (offset : Z) (n : nat) : Z :=
  match n with
  | O => 0
  | S k => 2 * field_nat b offset k + Z.b2z (bitAt b (offset + Z.of_nat k))
  end.

Definition field (b : Buffer) (offset width : Z) : Z :=
  field_nat b offset (Z.to_nat width).

(** Every byte is a byte. *)
Definition wf (b : Buffer) : Prop := Forall (fun x => 0 <= x < 256) b.

(** Bit [k] of the number a digit string denotes, read as the loops
    of [insertData] and [encodeBitSection] read it: from the last
    character backwards, anything but a ['1'] counting as 0. *)
Definition digit_bit (s : jsstring) (k : Z) : bool :=
  is_one (index s (JS.length s - 1 - k)).

(** A string without the character ['1']. *)
Definition no_one (s : jsstring) : Prop := Forall (fun c => c <> ch_1) s.

(** [b'] is [b] with the [w] low bits of the magnitude of [v] stored,
    most significant bit first, in the bits from [off] on, and nothing
    else changed. *)
Definition stores (b b' : Buffer) (v off w : Z) : Prop :=
  JS.length b' = JS.length b /\
  forall j, 0 <= j ->
    bitAt b' j = if (off <=? j) && (j <? off + w)
                 then Z.testbit (Z.abs v) (off + w - 1 - j)
                 else bitAt b j.

(** The bytes of a code unit, most significant first: one byte below
    256, two from there on. *)
Definition be_bytes (u : Z) : list Z :=
  if u <? 256 then [u] else [u / 256; u mod 256].

(** The eight binary digits of a byte, most significant first, and the
    digits of a buffer, byte after byte. *)
Definition byte_digits (x : Z) : jsstring :=
  map (fun k => if Z.testbit x k then ch_1 else ch_0) [7; 6; 5; 4; 3; 2; 1; 0].

Definition bit_digits (b : Buffer) : jsstring := flat_map byte_digits b.

Definition is_digit01 (c : Z) : bool := (c =? ch_0) || (c =? ch_1).

(** An integer the numbers of JavaScript hold exactly and step through
    one by one ([Number.isSafeInteger]): strictly between -2^53 and
    2^53 the loop counters of the packers count as integers do, also
    when they step once past either end of a field. *)
Definition exact (x : Z) : Prop := - 2 ^ 53 < x < 2 ^ 53.

(** A UTF-16 code unit. *)
Definition code_unit (u : Z) : Prop := 0 <= u < 2 ^ 16.

Definition ascii (s : jsstring) : Prop := Forall (fun u => 0 <= u < 128) s.

End Bits.

(* ================================================================== *)
(** * Properties of the platform operators *)
(* ================================================================== *)

Import JS Bits.

Lemma toInt32_small x : - 2 ^ 31 <= x < 2 ^ 31 -> toInt32 x = x.
Proof.
  intros H. unfold toInt32. rewrite Z.mod_small; lia.
Qed.

Lemma toInt32_range x : - 2 ^ 31 <= toInt32 x < 2 ^ 31.
Proof.
  unfold toInt32. pose proof (Z.mod_pos_bound (x + 2 ^ 31) (2 ^ 32)). lia.
Qed.

Lemma toInt32_mod x : toInt32 x mod 2 ^ 32 = x mod 2 ^ 32.
Proof.
  unfold toInt32.
  rewrite Zminus_mod_idemp_l.
  f_equal. lia.
Qed.

Lemma testbit_toInt32 x k : 0 <= k < 32 -> Z.testbit (toInt32 x) k = Z.testbit x k.
Proof.
  intros H.
  rewrite <- (Z.mod_pow2_bits_low (toInt32 x) 32 k) by lia.
  rewrite <- (Z.mod_pow2_bits_low x 32 k) by lia.
  now rewrite toInt32_mod.
Qed.

Lemma testbit_toUint8 x k : 0 <= k < 8 -> Z.testbit (toUint8 x) k = Z.testbit x k.
Proof.
  intros H. unfold toUint8. apply Z.mod_pow2_bits_low. lia.
Qed.

Lemma toInt32_congr x y : x mod 2 ^ 32 = y mod 2 ^ 32 -> toInt32 x = toInt32 y.
Proof.
  intros H. unfold toInt32.
  rewrite <- (Zplus_mod_idemp_l x), H, Zplus_mod_idemp_l. reflexivity.
Qed.

Lemma shift_count k : 0 <= k < 32 -> Z.land (toUint32 k) 31 = k.
Proof.
  intros H. unfold toUint32. rewrite Z.mod_small by lia.
  change 31 with (Z.ones 5). rewrite Z.land_ones by lia.
  apply Z.mod_small. change (2 ^ 5) with 32. lia.
Qed.

Lemma shl_1 k : 0 <= k < 31 -> shl 1 k = 2 ^ k.
Proof.
  intros H. unfold shl. rewrite shift_count by lia.
  rewrite (toInt32_small 1) by lia.
  rewrite Z.shiftl_1_l.
  apply toInt32_small.
  assert (0 < 2 ^ k) by (apply Z.pow_pos_nonneg; lia).
  assert (2 ^ k < 2 ^ 31) by (apply Z.pow_lt_mono_r; lia). lia.
Qed.

(** [1 << 32] is [1]: only the low five bits of the count are used. *)
Lemma shl_1_32 : shl 1 32 = 1.
Proof. reflexivity. Qed.

(* ================================================================== *)
(** * Singleton: the sequence counter and the timestamp *)
(* ================================================================== *)

Section SingletonFacts.
Import Singleton.

Lemma band_0_r x : band x 0 = 0.
Proof. unfold band. change (toInt32 0) with 0. apply Z.land_0_r. Qed.

Lemma incrementTimestamp_zero st :
  timeMark (incrementTimestamp st) = 0.
Proof.
  unfold incrementTimestamp. cbn [timeMark].
  rewrite shl_1_32. change (1 - 1) with 0. apply band_0_r.
Qed.

Lemma ticks_zero n : forall st, timeMark st = 0 -> timeMark (ticks n st) = 0.
Proof.
  induction n as [|n IH]; intros st H; [exact H|].
  cbn [ticks]. apply IH, incrementTimestamp_zero.
Qed.

Lemma incrementSequence_value st :
  fst (incrementSequence st) = sequenceNum (snd (incrementSequence st)).
Proof. reflexivity. Qed.

Lemma next_range s : 0 <= s -> 1 <= next s <= 999.
Proof.
  intros H. unfold next, rem.
  pose proof (Z.rem_bound_pos s 999). lia.
Qed.

Lemma next_cases s : 1 <= s <= 999 ->
  next s = if s =? 999 then 1 else s + 1.
Proof.
  intros H. unfold next, rem. destruct (Z.eqb_spec s 999) as [->|Hne].
  - reflexivity.
  - rewrite Z.rem_small; lia.
Qed.

Lemma next_closed_form s : 1 <= s <= 999 -> next s = (s - 1 + 1) mod 999 + 1.
Proof.
  intros H. unfold next, rem. rewrite Z.rem_mod_nonneg by lia.
  replace (s - 1 + 1) with s by lia. reflexivity.
Qed.

Lemma getSequenceNumber_next st :
  getSequenceNumber st = (next (sequenceNum st),
                          mkState (next (sequenceNum st)) (timeMark st)).
Proof. reflexivity. Qed.

(** The state after [n] calls, in closed form. *)
Lemma calls_state n : forall st, 1 <= sequenceNum st <= 999 ->
  sequenceNum (snd (calls n st))
  = (sequenceNum st - 1 + Z.of_nat n) mod 999 + 1.
Proof.
  induction n as [|n IH]; intros st H.
  - cbn [calls snd]. rewrite Z.add_0_r, Z.mod_small; lia.
  - cbn [calls]. rewrite getSequenceNumber_next.
    destruct (calls n _) as [vs st2] eqn:E. cbn [snd].
    change st2 with (snd (vs, st2)). rewrite <- E.
    rewrite IH; cbn [sequenceNum].
    + rewrite next_closed_form by lia.
      replace (sequenceNum st - 1 + 1) with (sequenceNum st) by lia.
      replace (sequenceNum st mod 999 + 1 - 1 + Z.of_nat n)
        with (sequenceNum st mod 999 + Z.of_nat n) by lia.
      rewrite Zplus_mod_idemp_l. f_equal. f_equal. lia.
    + apply next_range. lia.
Qed.

Lemma calls_values n : forall st, 1 <= sequenceNum st <= 999 ->
  Forall (fun v => 1 <= v <= 999) (fst (calls n st)).
Proof.
  induction n as [|n IH]; intros st H.
  - constructor.
  - cbn [calls]. rewrite getSequenceNumber_next.
    destruct (calls n _) as [vs st2] eqn:E. cbn [fst].
    constructor.
    + apply next_range. lia.
    + change vs with (fst (vs, st2)). rewrite <- E. apply IH.
      cbn [sequenceNum]. apply next_range. lia.
Qed.

End SingletonFacts.

(* ================================================================== *)
(** * Typed-array reads and writes, bit by bit *)
(* ================================================================== *)

Lemma length_set_nat b : forall i v,
  List.length (set_nat b i v) = List.length b.
Proof.
  induction b as [|h t IH]; intros [|i] v; cbn; auto.
Qed.

Lemma length_set b i v : JS.length (set b i v) = JS.length b.
Proof.
  unfold set, JS.length. destruct (i <? 0); auto.
  now rewrite length_set_nat.
Qed.

Lemma nth_error_set_nat_same b : forall i v,
  (i < List.length b)%nat -> nth_error (set_nat b i v) i = Some (toUint8 v).
Proof.
  induction b as [|h t IH]; intros [|i] v H; cbn in *; try lia; auto.
  apply IH. lia.
Qed.

Lemma nth_error_set_nat_other b : forall i k v,
  k <> i -> nth_error (set_nat b i v) k = nth_error b k.
Proof.
  induction b as [|h t IH]; intros [|i] [|k] v H; cbn; auto; try congruence.
Qed.

Lemma get_set_same b i v :
  0 <= i < JS.length b -> get (set b i v) i = Some (toUint8 v).
Proof.
  intros H. unfold get, index, set, JS.length in *.
  destruct (Z.ltb_spec i 0); try lia.
  apply nth_error_set_nat_same. lia.
Qed.

Lemma get_set_other b i k v :
  0 <= k -> k <> i -> get (set b i v) k = get b k.
Proof.
  intros Hk H. unfold get, index, set.
  destruct (Z.ltb_spec k 0); try lia.
  destruct (Z.ltb_spec i 0); auto.
  apply nth_error_set_nat_other. lia.
Qed.

Lemma wf_set b i v : wf b -> wf (set b i v).
Proof.
  unfold wf, set. intros H. destruct (i <? 0); auto.
  generalize (Z.to_nat i). clear i. induction H as [|h t Hh Ht IH]; intros [|n]; cbn.
  - constructor.
  - constructor.
  - constructor; auto. unfold toUint8. change (2 ^ 8) with 256.
    apply Z.mod_pos_bound. lia.
  - constructor; auto.
Qed.

(** Position of bit [i] inside its byte. *)
Lemma bit_index_range i : 0 <= i -> 0 <= 7 - rem i 8 < 8.
Proof.
  intros H. unfold rem. rewrite Z.rem_mod_nonneg by lia.
  pose proof (Z.mod_pos_bound i 8). lia.
Qed.

Lemma same_position i j :
  0 <= i -> 0 <= j -> j / 8 = i / 8 -> 7 - j mod 8 = 7 - i mod 8 -> j = i.
Proof.
  intros Hi Hj Hq Hr.
  rewrite (Z.div_mod i 8), (Z.div_mod j 8) by lia. lia.
Qed.

Lemma bitAt_set_one b i j :
  0 <= i < 8 * JS.length b -> 0 <= j ->
  bitAt (set b (floor_div i 8)
             (bor (num (get b (floor_div i 8))) (shl 1 (7 - rem i 8)))) j
  = if j =? i then true else bitAt b j.
Proof.
  intros Hi Hj. unfold bitAt, floor_div.
  pose proof (bit_index_range i (proj1 Hi)) as Hk.
  assert (Hq : 0 <= i / 8 < JS.length b)
    by (split; [apply Z.div_pos; lia | apply Z.div_lt_upper_bound; lia]).
  assert (Hk' : 0 <= 7 - j mod 8 < 8)
    by (pose proof (Z.mod_pos_bound j 8); lia).
  rewrite shl_1 by lia.
  destruct (Z.eq_dec (j / 8) (i / 8)) as [E|E].
  - rewrite E, get_set_same by assumption. cbn [num].
    rewrite testbit_toUint8 by lia. unfold bor.
    rewrite Z.lor_spec, !testbit_toInt32 by lia.
    rewrite Z.pow2_bits_eqb by lia.
    destruct (Z.eqb_spec j i) as [->|Hne].
    + unfold rem. rewrite Z.rem_mod_nonneg by lia.
      rewrite Z.eqb_refl. apply orb_true_r.
    + destruct (Z.eqb_spec (7 - rem i 8) (7 - j mod 8)) as [E2|E2].
      * exfalso. apply Hne. unfold rem in E2.
        rewrite Z.rem_mod_nonneg in E2 by lia.
        apply same_position; lia.
      * apply orb_false_r.
  - rewrite get_set_other by (try apply Z.div_pos; lia).
    destruct (Z.eqb_spec j i); [congruence | reflexivity].
Qed.

Lemma bitAt_set_zero b i j :
  0 <= i < 8 * JS.length b -> 0 <= j ->
  bitAt (set b (floor_div i 8)
             (band (num (get b (floor_div i 8))) (bnot (shl 1 (7 - rem i 8))))) j
  = if j =? i then false else bitAt b j.
Proof.
  intros Hi Hj. unfold bitAt, floor_div.
  pose proof (bit_index_range i (proj1 Hi)) as Hk.
  assert (Hq : 0 <= i / 8 < JS.length b)
    by (split; [apply Z.div_pos; lia | apply Z.div_lt_upper_bound; lia]).
  assert (Hk' : 0 <= 7 - j mod 8 < 8)
    by (pose proof (Z.mod_pos_bound j 8); lia).
  rewrite shl_1 by lia.
  destruct (Z.eq_dec (j / 8) (i / 8)) as [E|E].
  - rewrite E, get_set_same by assumption. cbn [num].
    rewrite testbit_toUint8 by lia. unfold band, bnot.
    rewrite Z.land_spec, testbit_toInt32 by lia.
    rewrite testbit_toInt32 by lia.
    rewrite Z.lnot_spec by lia. rewrite testbit_toInt32 by lia.
    rewrite Z.pow2_bits_eqb by lia.
    destruct (Z.eqb_spec j i) as [->|Hne].
    + unfold rem. rewrite Z.rem_mod_nonneg by lia.
      rewrite Z.eqb_refl. apply andb_false_r.
    + destruct (Z.eqb_spec (7 - rem i 8) (7 - j mod 8)) as [E2|E2].
      * exfalso. apply Hne. unfold rem in E2.
        rewrite Z.rem_mod_nonneg in E2 by lia.
        apply same_position; lia.
      * apply andb_true_r.
  - rewrite get_set_other by (try apply Z.div_pos; lia).
    destruct (Z.eqb_spec j i); [congruence | reflexivity].
Qed.

(* ================================================================== *)
(** * Binary digit strings *)
(* ================================================================== *)

Lemma is_one_no_one s k : no_one s -> is_one (nth_error s k) = false.
Proof.
  intros H. revert k. induction H as [|c t Hc Ht IH]; intros [|k]; cbn; auto.
  now apply Z.eqb_neq.
Qed.

Lemma no_one_rev s : no_one s -> no_one (rev s).
Proof. unfold no_one. apply Forall_rev. Qed.

Lemma no_one_zeros n : no_one (repeat ch_0 n).
Proof.
  unfold no_one. apply Forall_forall. intros c Hc.
  apply repeat_spec in Hc. subst c. discriminate.
Qed.

Lemma digit_bit_rev s k :
  0 <= k -> digit_bit s k = is_one (nth_error (rev s) (Z.to_nat k)).
Proof.
  intros Hk. unfold digit_bit, index, JS.length.
  rewrite nth_error_rev.
  destruct (Z.ltb_spec (Z.of_nat (List.length s) - 1 - k) 0) as [H|H];
    destruct (Nat.ltb_spec (Z.to_nat k) (List.length s)) as [H'|H']; try lia; auto.
  do 2 f_equal. lia.
Qed.

Lemma rev_digits_bit p : forall pre k, no_one pre ->
  is_one (nth_error (rev (pre ++ pos_digits p)) k)
  = Z.testbit (Zpos p) (Z.of_nat k).
Proof.
  induction p as [q IH|q IH|]; intros pre k Hpre; cbn [pos_digits].
  - rewrite app_assoc, rev_app_distr. cbn [rev app].
    destruct k as [|k]; [reflexivity|].
    cbn [nth_error]. rewrite IH by assumption.
    rewrite Nat2Z.inj_succ, Pos2Z.inj_xI.
    now rewrite Z.testbit_odd_succ by lia.
  - rewrite app_assoc, rev_app_distr. cbn [rev app].
    destruct k as [|k]; [reflexivity|].
    cbn [nth_error]. rewrite IH by assumption.
    rewrite Nat2Z.inj_succ, Pos2Z.inj_xO.
    now rewrite Z.testbit_even_succ by lia.
  - rewrite rev_app_distr. cbn [rev app].
    destruct k as [|k]; [reflexivity|].
    cbn [nth_error]. rewrite is_one_no_one by now apply no_one_rev.
    rewrite Nat2Z.inj_succ.
    symmetry. apply (Z.bits_above_log2 1); cbn; lia.
Qed.

(** The digit string of [v], behind any prefix without a ['1'], reads
    as the magnitude of [v]. *)
Lemma digit_bit_toString2 pre v k :
  no_one pre -> 0 <= k ->
  digit_bit (pre ++ toString2 v) k = Z.testbit (Z.abs v) k.
Proof.
  intros Hpre Hk. rewrite digit_bit_rev by assumption.
  destruct v as [|p|p]; cbn [toString2 Z.abs].
  - rewrite Z.bits_0. apply is_one_no_one, no_one_rev.
    apply Forall_app; split; [assumption|].
    constructor; [discriminate | constructor].
  - rewrite rev_digits_bit by assumption. now rewrite Z2Nat.id.
  - change (ch_minus :: pos_digits p) with ([ch_minus] ++ pos_digits p).
    rewrite app_assoc, rev_digits_bit, Z2Nat.id; auto.
    apply Forall_app; split; [assumption|].
    constructor; [discriminate | constructor].
Qed.

Lemma digit_bit_padStart v size k :
  0 <= k -> digit_bit (padStart (toString2 v) size ch_0) k = Z.testbit (Z.abs v) k.
Proof.
  intros Hk. unfold padStart. apply digit_bit_toString2; auto using no_one_zeros.
Qed.

Lemma digit_bit_plain v k :
  0 <= k -> digit_bit (toString2 v) k = Z.testbit (Z.abs v) k.
Proof.
  intros Hk. apply (digit_bit_toString2 [] v k); [constructor | assumption].
Qed.

(* ================================================================== *)
(** * The two field writers *)
(* ================================================================== *)

Section Writers.
Import ITPRequest ITPResponse.

Lemma encodeBitSection_loop_eq n : forall b s idx i,
  encodeBitSection_loop n b s idx i = insertData_loop n b s idx i.
Proof.
  induction n as [|n IH]; intros b s idx i; cbn; [reflexivity|].
  rewrite IH. destruct (is_one (index s idx)); reflexivity.
Qed.

Lemma length_insertData_loop n : forall b s idx i,
  JS.length (insertData_loop n b s idx i) = JS.length b.
Proof.
  induction n as [|n IH]; intros b s idx i; cbn; [reflexivity|].
  rewrite IH. destruct (is_one (index s idx)); apply length_set.
Qed.

Lemma wf_insertData_loop n : forall b s idx i,
  wf b -> wf (insertData_loop n b s idx i).
Proof.
  induction n as [|n IH]; intros b s idx i H; cbn; [assumption|].
  apply IH. destruct (is_one (index s idx)); now apply wf_set.
Qed.

Lemma bitAt_insertData_loop s n : forall b idx i j,
  Z.of_nat n <= i + 1 -> i < 8 * JS.length b -> 0 <= j ->
  bitAt (insertData_loop n b s idx i) j
  = if (i - Z.of_nat n <? j) && (j <=? i)
    then is_one (index s (idx - (i - j)))
    else bitAt b j.
Proof.
  induction n as [|n IH]; intros b idx i j Hn Hi Hj.
  - cbn [insertData_loop].
    destruct (Z.ltb_spec (i - Z.of_nat 0) j), (Z.leb_spec j i);
      cbn; auto; lia.
  - cbn [insertData_loop]. rewrite IH; try lia.
    2:{ destruct (is_one (index s idx)); rewrite length_set; lia. }
    destruct (Z.eqb_spec j i) as [->|Hne].
    + destruct (Z.ltb_spec (i - 1 - Z.of_nat n) i), (Z.leb_spec i (i - 1));
        try lia; cbn [andb].
      destruct (Z.ltb_spec (i - Z.of_nat (S n)) i), (Z.leb_spec i i);
        try lia; cbn [andb].
      replace (idx - (i - i)) with idx by lia.
      destruct (is_one (index s idx)).
      * rewrite bitAt_set_one by lia. now rewrite Z.eqb_refl.
      * rewrite bitAt_set_zero by lia. now rewrite Z.eqb_refl.
    + replace (idx - 1 - (i - 1 - j)) with (idx - (i - j)) by lia.
      assert (E : (i - 1 - Z.of_nat n <? j) && (j <=? i - 1)
                  = (i - Z.of_nat (S n) <? j) && (j <=? i)).
      { destruct (Z.ltb_spec (i - 1 - Z.of_nat n) j), (Z.leb_spec j (i - 1)),
          (Z.ltb_spec (i - Z.of_nat (S n)) j), (Z.leb_spec j i);
          cbn; auto; lia. }
      rewrite E.
      destruct ((i - Z.of_nat (S n) <? j) && (j <=? i)); [reflexivity|].
      destruct (is_one (index s idx)).
      * rewrite bitAt_set_one by lia.
        destruct (Z.eqb_spec j i); [congruence | reflexivity].
      * rewrite bitAt_set_zero by lia.
        destruct (Z.eqb_spec j i); [congruence | reflexivity].
Qed.

(** What [insertData] leaves in every bit of the buffer. *)
Lemma bitAt_insertData b v off w j :
  0 <= off -> 0 <= w -> off + w <= 8 * JS.length b -> 0 <= j ->
  bitAt (insertData b v off w) j
  = if (off <=? j) && (j <? off + w)
    then Z.testbit (Z.abs v) (off + w - 1 - j)
    else bitAt b j.
Proof.
  intros Hoff Hw Hcap Hj. unfold insertData.
  rewrite bitAt_insertData_loop by lia.
  rewrite Z2Nat.id by lia.
  destruct (Z.ltb_spec (off + w - 1 - w) j), (Z.leb_spec j (off + w - 1)),
    (Z.leb_spec off j), (Z.ltb_spec j (off + w)); cbn [andb]; try lia; auto.
  rewrite <- (digit_bit_padStart v w) by lia. reflexivity.
Qed.

(** What [encodeBitSection] leaves in every bit of the buffer. *)
Lemma bitAt_encodeBitSection b v off w j :
  0 <= off -> 0 <= w -> off + w <= 8 * JS.length b -> 0 <= j ->
  bitAt (encodeBitSection b v off w) j
  = if (off <=? j) && (j <? off + w)
    then Z.testbit (Z.abs v) (off + w - 1 - j)
    else bitAt b j.
Proof.
  intros Hoff Hw Hcap Hj. unfold encodeBitSection.
  rewrite encodeBitSection_loop_eq, bitAt_insertData_loop by lia.
  rewrite Z2Nat.id by lia.
  destruct (Z.ltb_spec (off + w - 1 - w) j), (Z.leb_spec j (off + w - 1)),
    (Z.leb_spec off j), (Z.ltb_spec j (off + w)); cbn [andb]; try lia; auto.
  rewrite <- (digit_bit_plain v) by lia. reflexivity.
Qed.

Lemma length_insertData b v off w :
  JS.length (insertData b v off w) = JS.length b.
Proof. apply length_insertData_loop. Qed.

Lemma length_encodeBitSection b v off w :
  JS.length (encodeBitSection b v off w) = JS.length b.
Proof.
  unfold encodeBitSection. rewrite encodeBitSection_loop_eq.
  apply length_insertData_loop.
Qed.

Lemma wf_insertData b v off w : wf b -> wf (insertData b v off w).
Proof. apply wf_insertData_loop. Qed.

Lemma wf_encodeBitSection b v off w : wf b -> wf (encodeBitSection b v off w).
Proof.
  unfold encodeBitSection. rewrite encodeBitSection_loop_eq.
  apply wf_insertData_loop.
Qed.

End Writers.

(* ================================================================== *)
(** * Fields: the number a run of bits holds *)
(* ================================================================== *)

Lemma field_nat_range b off n : 0 <= field_nat b off n < 2 ^ Z.of_nat n.
Proof.
  induction n as [|n IH].
  - cbn. lia.
  - cbn [field_nat]. rewrite Nat2Z.inj_succ, Z.pow_succ_r by lia.
    destruct (bitAt b (off + Z.of_nat n)); cbn [Z.b2z]; lia.
Qed.

Lemma field_range b off w : 0 <= w -> 0 <= field b off w < 2 ^ w.
Proof.
  intros Hw. unfold field.
  pose proof (field_nat_range b off (Z.to_nat w)) as H.
  now rewrite Z2Nat.id in H.
Qed.

Lemma field_nat_ext b b' off n :
  (forall k, 0 <= k < Z.of_nat n -> bitAt b (off + k) = bitAt b' (off + k)) ->
  field_nat b off n = field_nat b' off n.
Proof.
  induction n as [|n IH]; intros H; [reflexivity|].
  cbn [field_nat]. rewrite IH, H; try lia; auto.
  intros k Hk. apply H. lia.
Qed.

Lemma field_ext b b' off w :
  (forall k, 0 <= k < w -> bitAt b (off + k) = bitAt b' (off + k)) ->
  field b off w = field b' off w.
Proof.
  intros H. apply field_nat_ext. intros k Hk. apply H. lia.
Qed.

Lemma field_nat_of_bits b off n : forall x,
  (forall k, 0 <= k < Z.of_nat n ->
             bitAt b (off + k) = Z.testbit x (Z.of_nat n - 1 - k)) ->
  field_nat b off n = x mod 2 ^ Z.of_nat n.
Proof.
  induction n as [|n IH]; intros x H.
  - cbn. now rewrite Z.mod_1_r.
  - cbn [field_nat]. rewrite (IH (x / 2)).
    + rewrite H by lia.
      replace (Z.of_nat (S n) - 1 - Z.of_nat n) with 0 by lia.
      rewrite Z.bit0_mod.
      rewrite Nat2Z.inj_succ, Z.pow_succ_r by lia.
      rewrite (Z.rem_mul_r x 2 (2 ^ Z.of_nat n)); try lia.
    + intros k Hk. rewrite H by lia.
      rewrite <- Z.div2_div, Z.div2_spec, Z.shiftr_spec by lia.
      f_equal. lia.
Qed.

Lemma stores_same b b' v off w :
  stores b b' v off w -> 0 <= off -> 0 <= w ->
  field b' off w = Z.abs v mod 2 ^ w.
Proof.
  intros [_ H] Hoff Hw. unfold field.
  rewrite <- (Z2Nat.id w) at 2 by assumption.
  apply field_nat_of_bits. intros k Hk. rewrite Z2Nat.id in * by assumption.
  rewrite H by lia.
  destruct (Z.leb_spec off (off + k)), (Z.ltb_spec (off + k) (off + w));
    try lia. cbn [andb]. f_equal. lia.
Qed.

Lemma stores_other b b' v off w off' w' :
  stores b b' v off w -> 0 <= off' ->
  off' + w' <= off \/ off + w <= off' ->
  field b' off' w' = field b off' w'.
Proof.
  intros [_ H] Hoff Hd. apply field_ext. intros k Hk.
  rewrite H by lia.
  destruct (Z.leb_spec off (off' + k)), (Z.ltb_spec (off' + k) (off + w));
    cbn [andb]; auto; lia.
Qed.

Lemma stores_length b b' v off w : stores b b' v off w -> JS.length b' = JS.length b.
Proof. now intros [H _]. Qed.

Lemma insertData_stores b v off w :
  0 <= off -> 0 <= w -> off + w <= 8 * JS.length b ->
  stores b (ITPRequest.insertData b v off w) v off w.
Proof.
  intros. split; [apply length_insertData|].
  intros j Hj. now apply bitAt_insertData.
Qed.

Lemma encodeBitSection_stores b v off w :
  0 <= off -> 0 <= w -> off + w <= 8 * JS.length b ->
  stores b (ITPResponse.encodeBitSection b v off w) v off w.
Proof.
  intros. split; [apply length_encodeBitSection|].
  intros j Hj. now apply bitAt_encodeBitSection.
Qed.

(* ================================================================== *)
(** * The two field readers *)
(* ================================================================== *)

Lemma band_sar_bit x k : 0 <= k < 8 -> band (sar x k) 1 = Z.b2z (Z.testbit x k).
Proof.
  intros Hk. unfold band, sar. rewrite shift_count by lia.
  change (toInt32 1) with (Z.ones 1).
  rewrite Z.land_ones by lia. change (2 ^ 1) with 2.
  rewrite <- Z.bit0_mod. f_equal.
  rewrite testbit_toInt32, Z.shiftr_spec, testbit_toInt32 by lia.
  reflexivity.
Qed.

Lemma toInt32_idem x : toInt32 (toInt32 x) = toInt32 x.
Proof. apply toInt32_small, toInt32_range. Qed.

Lemma toInt32_double x : toInt32 (2 * toInt32 x) = toInt32 (2 * x).
Proof.
  apply toInt32_congr.
  rewrite Zmult_mod, toInt32_mod, <- Zmult_mod. reflexivity.
Qed.

Lemma toInt32_double_succ x : Z.lor (toInt32 (2 * x)) 1 = toInt32 (2 * x + 1).
Proof.
  pose proof (Z.add_lor_land (toInt32 (2 * x)) 1) as H.
  assert (E : Z.land (toInt32 (2 * x)) 1 = 0).
  { change 1 with (Z.ones 1). rewrite Z.land_ones by lia.
    change (2 ^ 1) with 2. unfold toInt32.
    change (2 ^ 31) with 2147483648. change (2 ^ 32) with 4294967296.
    Z.div_mod_to_equations. lia. }
  rewrite E in H.
  assert (toInt32 (2 * x) + 1 = toInt32 (2 * x + 1)).
  { unfold toInt32.
    change (2 ^ 31) with 2147483648. change (2 ^ 32) with 4294967296.
    Z.div_mod_to_equations. lia. }
  lia.
Qed.

(** One round of the reading loops shifts the next bit in. *)
Lemma shift_in F bit :
  bor (shl (toInt32 F) 1) (Z.b2z bit) = toInt32 (2 * F + Z.b2z bit).
Proof.
  unfold shl. rewrite shift_count by lia.
  rewrite toInt32_idem, Z.shiftl_mul_pow2 by lia.
  change (2 ^ 1) with 2. rewrite Z.mul_comm, toInt32_double.
  unfold bor. rewrite toInt32_idem.
  destruct bit; cbn [Z.b2z].
  - change (toInt32 1) with 1. apply toInt32_double_succ.
  - change (toInt32 0) with 0. now rewrite Z.lor_0_r, Z.add_0_r.
Qed.

Section Readers.
Import ClientsHandler ImageClient.

Lemma extractDataBits_loop_field n : forall b off i,
  0 <= off ->
  extractDataBits_loop n b off (Z.of_nat i) (toInt32 (field_nat b off i))
  = toInt32 (field_nat b off (i + n)).
Proof.
  induction n as [|n IH]; intros b off i Hoff.
  - cbn. now rewrite Nat.add_0_r.
  - cbn [extractDataBits_loop].
    rewrite band_sar_bit by (apply bit_index_range; lia).
    rewrite shift_in.
    replace (Z.of_nat i + 1) with (Z.of_nat (S i)) by lia.
    unfold rem, floor_div. rewrite Z.rem_mod_nonneg by lia.
    change (toInt32 (2 * field_nat b off i
                     + Z.b2z (Z.testbit (num (get b ((off + Z.of_nat i) / 8)))
                                        (7 - (off + Z.of_nat i) mod 8))))
      with (toInt32 (field_nat b off (S i))).
    rewrite IH by assumption. f_equal. f_equal. lia.
Qed.

(** [extractDataBits] returns the field as a signed 32-bit integer. *)
Lemma extractDataBits_field b off len :
  0 <= off ->
  extractDataBits b off len = toInt32 (field b off len).
Proof.
  intros Hoff. unfold extractDataBits.
  apply (extractDataBits_loop_field (Z.to_nat len) b off 0 Hoff).
Qed.

(** With fewer than 32 bits the sign bit stays clear. *)
Lemma extractDataBits_unsigned b off len :
  0 <= off -> len < 32 ->
  extractDataBits b off len = field b off len.
Proof.
  intros Hoff Hlen. rewrite extractDataBits_field by assumption.
  apply toInt32_small. unfold field.
  pose proof (field_nat_range b off (Z.to_nat len)) as H.
  assert (2 ^ Z.of_nat (Z.to_nat len) <= 2 ^ 31)
    by (apply Z.pow_le_mono_r; lia).
  lia.
Qed.

Lemma extractBits_loop_eq n : forall b off i v,
  extractBits_loop n b off i v = extractDataBits_loop n b off i v.
Proof.
  induction n as [|n IH]; intros; cbn; [reflexivity | apply IH].
Qed.

Lemma extractBits_eq b off len : extractBits b off len = extractDataBits b off len.
Proof. apply extractBits_loop_eq. Qed.

End Readers.

(* ================================================================== *)
(** * The timestamp tick and the sequence cycle *)
(* ================================================================== *)

(** C3.  A tick does not take the timestamp from [t] to [(t + 1) mod
    2^32]: the mask [(1 << 32) - 1] is 0, so from the value 5 the tick
    gives 0 where the free-running counter would give 6; every tick
    from every state gives 0, and so does every positive number of
    ticks. *)
Theorem C3_tick_resets_timestamp :
  Singleton.timeMark (Singleton.incrementTimestamp (Singleton.mkState 5 5)) = 0
  /\ (5 + 1) mod 2 ^ 32 = 6
  /\ (forall st, Singleton.timeMark (Singleton.incrementTimestamp st) = 0)
  /\ (forall n st, Singleton.timeMark (Singleton.ticks (S n) st) = 0).
Proof.
  split; [reflexivity|]. split; [reflexivity|].
  split; [apply incrementTimestamp_zero|].
  intros n st. cbn [Singleton.ticks].
  apply ticks_zero, incrementTimestamp_zero.
Qed.

(** C6, as stated, fails: seeded with 1, the 999th call returns 1 and
    the 1000th call returns 2. *)
Lemma C6_counterexample :
  1 <= 1 <= 999
  /\ Singleton.call_value 999 (Singleton.mkState 1 1) = 1
  /\ Singleton.call_value 1000 (Singleton.mkState 1 1) = 2.
Proof. vm_compute. intuition congruence. Qed.

(** C6, amended.  From every seed in 1..999: every call returns a value
    in 1..999, never 0, which is the counter before the call advanced
    by one, 999 wrapping to 1; after 999 calls the counter is back at
    the seed, so the 1000th call returns what the first call returned,
    and that is 1 exactly when the seed is 999. *)
Theorem C6_sequence_cycle : forall st,
  1 <= Singleton.sequenceNum st <= 999 ->
  (forall n, 1 <= Singleton.call_value (S n) st <= 999)
  /\ (forall n,
        let before := Singleton.sequenceNum (snd (Singleton.calls n st)) in
        Singleton.call_value (S n) st
        = if before =? 999 then 1 else before + 1)
  /\ Singleton.sequenceNum (snd (Singleton.calls 999 st)) = Singleton.sequenceNum st
  /\ Singleton.call_value 1000 st = Singleton.call_value 1 st
  /\ (Singleton.call_value 1000 st = 1 <-> Singleton.sequenceNum st = 999).
Proof.
  intros st Hst.
  assert (Hstate : forall n,
             1 <= Singleton.sequenceNum (snd (Singleton.calls n st)) <= 999).
  { intros n. rewrite calls_state by assumption.
    pose proof (Z.mod_pos_bound
                  (Singleton.sequenceNum st - 1 + Z.of_nat n) 999). lia. }
  assert (Hval : forall n,
             Singleton.call_value (S n) st
             = Singleton.next (Singleton.sequenceNum (snd (Singleton.calls n st)))).
  { intros n. unfold Singleton.call_value.
    replace (S n - 1)%nat with n by lia.
    now rewrite getSequenceNumber_next. }
  assert (Hback : Singleton.sequenceNum (snd (Singleton.calls 999 st))
                  = Singleton.sequenceNum st).
  { rewrite calls_state by assumption.
    change (Z.of_nat 999) with (1 * 999).
    rewrite Z.mod_add, Z.mod_small; lia. }
  split; [|split; [|split; [|split]]].
  - intros n. rewrite Hval. apply next_range. specialize (Hstate n). lia.
  - intros n before. rewrite Hval. apply next_cases, Hstate.
  - exact Hback.
  - rewrite (Hval 999%nat), (Hval 0%nat), Hback. reflexivity.
  - rewrite (Hval 999%nat), Hback, next_cases by assumption.
    destruct (Z.eqb_spec (Singleton.sequenceNum st) 999); lia.
Qed.

Lemma C6_sequence_cycle_witness :
  Singleton.call_value 1000 (Singleton.mkState 999 999) = 1
  /\ Singleton.call_value 1000 (Singleton.mkState 998 998) = 999.
Proof.
  split.
  - apply (C6_sequence_cycle (Singleton.mkState 999 999)); cbn; [lia | reflexivity].
  - destruct (C6_sequence_cycle (Singleton.mkState 998 998)) as (_ & _ & _ & H & _);
      [cbn; lia | rewrite H; reflexivity].
Defined.

(* ================================================================== *)
(** * Bit-field isolation *)
(* ================================================================== *)

(** C9.  Writing a field that lies inside the buffer, with [insertData]
    or with [encodeBitSection], keeps the buffer's length, leaves every
    bit outside [bitOffset, bitOffset + bitWidth) as it was, whatever it
    was, leaves the value in the field, and keeps bytes bytes. *)
Theorem C9_bit_field_isolation : forall buffer value bitOffset bitWidth,
  0 <= bitOffset -> 0 <= bitWidth ->
  bitOffset + bitWidth <= 8 * JS.length buffer ->
  0 <= value < 2 ^ bitWidth ->
  let b1 := ITPRequest.insertData buffer value bitOffset bitWidth in
  let b2 := ITPResponse.encodeBitSection buffer value bitOffset bitWidth in
  JS.length b1 = JS.length buffer /\ JS.length b2 = JS.length buffer
  /\ (forall j, 0 <= j < 8 * JS.length buffer ->
                ~ (bitOffset <= j < bitOffset + bitWidth) ->
                bitAt b1 j = bitAt buffer j /\ bitAt b2 j = bitAt buffer j)
  /\ field b1 bitOffset bitWidth = value
  /\ field b2 bitOffset bitWidth = value
  /\ (wf buffer -> wf b1 /\ wf b2).
Proof.
  intros buffer value off w Hoff Hw Hcap Hv b1 b2.
  pose proof (insertData_stores buffer value off w Hoff Hw Hcap) as S1.
  pose proof (encodeBitSection_stores buffer value off w Hoff Hw Hcap) as S2.
  fold b1 in S1. fold b2 in S2.
  split; [apply S1|]. split; [apply S2|]. split; [|split; [|split]].
  - intros j Hj Hout. destruct S1 as [_ S1], S2 as [_ S2].
    rewrite S1, S2 by lia.
    destruct (Z.leb_spec off j), (Z.ltb_spec j (off + w)); cbn [andb]; auto; lia.
  - rewrite (stores_same _ _ _ _ _ S1), Z.abs_eq, Z.mod_small; lia.
  - rewrite (stores_same _ _ _ _ _ S2), Z.abs_eq, Z.mod_small; lia.
  - intros Hwf. split; [apply wf_insertData | apply wf_encodeBitSection];
      assumption.
Qed.

Lemma C9_bit_field_isolation_witness :
  bitAt (ITPRequest.insertData (repeat 255 12) 2 4 2) 3 = true
  /\ bitAt (ITPResponse.encodeBitSection (repeat 255 12) 2 4 2) 6 = true.
Proof.
  destruct (C9_bit_field_isolation (repeat 255 12) 2 4 2) as (_ & _ & H & _);
    [lia | lia | vm_compute; discriminate | vm_compute; intuition discriminate |].
  split.
  - destruct (H 3) as [H3 _]; [vm_compute; intuition discriminate | lia |].
    rewrite H3. reflexivity.
  - destruct (H 6) as [_ H6]; [vm_compute; intuition discriminate | lia |].
    rewrite H6. reflexivity.
Defined.

(* ================================================================== *)
(** * The response header *)
(* ================================================================== *)

Lemma length_alloc n : 0 <= n -> JS.length (alloc n) = n.
Proof.
  intros H. unfold JS.length, alloc. rewrite repeat_length. lia.
Qed.

Lemma bitAt_app h d j :
  0 <= j < 8 * JS.length h -> bitAt (h ++ d) j = bitAt h j.
Proof.
  intros Hj. unfold bitAt, get, index, JS.length in *.
  assert (0 <= j / 8 < Z.of_nat (List.length h))
    by (split; [apply Z.div_pos; lia | apply Z.div_lt_upper_bound; lia]).
  destruct (Z.ltb_spec (j / 8) 0); [lia|].
  rewrite nth_error_app1 by lia. reflexivity.
Qed.

Lemma field_app h d off w :
  0 <= off -> off + w <= 8 * JS.length h ->
  field (h ++ d) off w = field h off w.
Proof.
  intros Hoff Hn. apply field_ext. intros k Hk. apply bitAt_app. lia.
Qed.

Section ResponseHeader.
Import ITPResponse.

(** The header [assemblePacket] builds: twelve bytes holding, field by
    field, the low bits of the magnitudes of the configured numbers. *)
Lemma assemblePacket_fields r :
  let h := assemblePacket r in
  JS.length h = 12
  /\ field h 0 4 = Z.abs (versionNum r) mod 2 ^ 4
  /\ field h 4 2 = Z.abs (type r) mod 2 ^ 2
  /\ field h 6 26 = Z.abs (sequence r) mod 2 ^ 26
  /\ field h 32 32 = Z.abs (time r) mod 2 ^ 32
  /\ field h 64 32 = Z.abs (size r) mod 2 ^ 32.
Proof.
  unfold assemblePacket.
  set (b0 := alloc 12).
  set (b1 := encodeBitSection b0 (versionNum r) 0 4).
  set (b2 := encodeBitSection b1 (type r) 4 2).
  set (b3 := encodeBitSection b2 (sequence r) 6 26).
  set (b4 := encodeBitSection b3 (time r) 32 32).
  set (b5 := encodeBitSection b4 (size r) 64 32).
  assert (L0 : JS.length b0 = 12) by reflexivity.
  assert (L1 : JS.length b1 = 12)
    by (unfold b1; now rewrite length_encodeBitSection).
  assert (L2 : JS.length b2 = 12)
    by (unfold b2; now rewrite length_encodeBitSection).
  assert (L3 : JS.length b3 = 12)
    by (unfold b3; now rewrite length_encodeBitSection).
  assert (L4 : JS.length b4 = 12)
    by (unfold b4; now rewrite length_encodeBitSection).
  assert (L5 : JS.length b5 = 12)
    by (unfold b5; now rewrite length_encodeBitSection).
  assert (S1 : stores b0 b1 (versionNum r) 0 4)
    by (apply encodeBitSection_stores; lia).
  assert (S2 : stores b1 b2 (type r) 4 2)
    by (apply encodeBitSection_stores; lia).
  assert (S3 : stores b2 b3 (sequence r) 6 26)
    by (apply encodeBitSection_stores; lia).
  assert (S4 : stores b3 b4 (time r) 32 32)
    by (apply encodeBitSection_stores; lia).
  assert (S5 : stores b4 b5 (size r) 64 32)
    by (apply encodeBitSection_stores; lia).
  cbv zeta. split; [exact L5|]. repeat split.
  - rewrite (stores_other _ _ _ _ _ _ _ S5), (stores_other _ _ _ _ _ _ _ S4),
      (stores_other _ _ _ _ _ _ _ S3), (stores_other _ _ _ _ _ _ _ S2)
      by lia.
    apply (stores_same _ _ _ 0 4 S1); lia.
  - rewrite (stores_other _ _ _ _ _ _ _ S5), (stores_other _ _ _ _ _ _ _ S4),
      (stores_other _ _ _ _ _ _ _ S3) by lia.
    apply (stores_same _ _ _ 4 2 S2); lia.
  - rewrite (stores_other _ _ _ _ _ _ _ S5), (stores_other _ _ _ _ _ _ _ S4)
      by lia.
    apply (stores_same _ _ _ 6 26 S3); lia.
  - rewrite (stores_other _ _ _ _ _ _ _ S5) by lia.
    apply (stores_same _ _ _ 32 32 S4); lia.
  - apply (stores_same _ _ _ 64 32 S5); lia.
Qed.

End ResponseHeader.

(* ================================================================== *)
(** * The server session *)
(* ================================================================== *)

Section ServerSession.
Import ClientsHandler.

Variable host : Host.

(** What the ['data'] listener does, in one equation. *)
Lemma onData_run seq data st :
  onData host seq data st
  = (tt,
     mkServerState
       (Singleton.mkState
          (Singleton.next (Singleton.sequenceNum (singleton st)))
          (Singleton.timeMark (singleton st)))
       (answer host st data),
     [LogPacket data;
      LogRequest seq (extractDetails data)
                 (mapTypeToExtension (imageType (extractDetails data)));
      SockWrite (ITPResponse.assemblePacket (answer host st data)
                   ++ payload host data);
      SockEnd]).
Proof.
  unfold onData, handleData, ClientsHandler.answer, ClientsHandler.payload,
    requestedPath.
  unfold bind, logBinaryPacketHeader, logPacketDetails, emit.
  destruct (existsSync _ _) eqn:E.
  - reflexivity.
  - cbn. rewrite app_nil_r. reflexivity.
Qed.

Lemma answer_sequence st data :
  ITPResponse.sequence (answer host st data)
  = Singleton.next (Singleton.sequenceNum (singleton st)).
Proof.
  unfold ClientsHandler.answer. destruct (existsSync _ _); reflexivity.
Qed.

Lemma answer_time st data :
  ITPResponse.time (answer host st data) = extractDataBits data 32 32.
Proof.
  unfold ClientsHandler.answer. destruct (existsSync _ _); reflexivity.
Qed.

Lemma answer_version st data :
  ITPResponse.versionNum (answer host st data) = extractDataBits data 0 4.
Proof.
  unfold ClientsHandler.answer. destruct (existsSync _ _); reflexivity.
Qed.

(** The header fields of the packet sent are those of the header
    [assemblePacket] built, with or without a payload behind it. *)
Lemma sent_field st data off w :
  0 <= off -> off + w <= 96 ->
  field (ITPResponse.assemblePacket (answer host st data) ++ payload host data) off w
  = field (ITPResponse.assemblePacket (answer host st data)) off w.
Proof.
  intros Hoff Hn. apply field_app; [assumption|].
  destruct (assemblePacket_fields (answer host st data)) as [L _].
  cbv zeta in L. rewrite L. lia.
Qed.

(** The time field of the response, in terms of the time field of the
    request: the request's field is read as a signed 32-bit integer and
    the magnitude of that integer is what gets written. *)
Lemma response_time_field seq data st :
  exists packet,
    writes (events (onData host seq data st)) = [packet]
    /\ field packet 32 32 = Z.abs (toInt32 (field data 32 32)) mod 2 ^ 32.
Proof.
  rewrite onData_run. eexists. split; [reflexivity|].
  rewrite sent_field by lia.
  destruct (assemblePacket_fields (answer host st data)) as (_ & _ & _ & _ & T & _).
  cbv zeta in T. rewrite T, answer_time.
  rewrite extractDataBits_field by lia. reflexivity.
Qed.

(** A request time below 2^31 is echoed. *)
Lemma response_time_echo_low seq data st :
  field data 32 32 < 2 ^ 31 ->
  exists packet,
    writes (events (onData host seq data st)) = [packet]
    /\ field packet 32 32 = field data 32 32.
Proof.
  intros H. destruct (response_time_field seq data st) as (p & W & T).
  exists p. split; [assumption|]. rewrite T.
  pose proof (field_range data 32 32) as R.
  rewrite toInt32_small, Z.abs_eq, Z.mod_small; lia.
Qed.

Lemma manageClient_run st :
  manageClient st
  = (Singleton.next (Singleton.sequenceNum (singleton st)),
     mkServerState
       (Singleton.mkState
          (Singleton.next (Singleton.sequenceNum (singleton st)))
          (Singleton.timeMark (singleton st)))
       (responseDetails st),
     [LogConnected (Singleton.next (Singleton.sequenceNum (singleton st)))
                   (Singleton.timeMark (singleton st))]).
Proof. reflexivity. Qed.

Lemma exchange_run data st :
  let s1 := Singleton.next (Singleton.sequenceNum (singleton st)) in
  let st1 := mkServerState
               (Singleton.mkState s1 (Singleton.timeMark (singleton st)))
               (responseDetails st) in
  exchange host data st
  = (s1,
     mkServerState
       (Singleton.mkState (Singleton.next s1) (Singleton.timeMark (singleton st)))
       (answer host st1 data),
     [LogConnected s1 (Singleton.timeMark (singleton st));
      LogPacket data;
      LogRequest s1 (extractDetails data)
                 (mapTypeToExtension (imageType (extractDetails data)));
      SockWrite (ITPResponse.assemblePacket (answer host st1 data)
                   ++ payload host data);
      SockEnd]).
Proof.
  intros s1 st1. unfold ClientsHandler.exchange, bind.
  rewrite manageClient_run. fold s1. fold st1.
  rewrite onData_run. reflexivity.
Qed.

(** The sequence field of the packet an exchange sends. *)
Lemma exchange_sequence_field data st :
  1 <= Singleton.sequenceNum (singleton st) <= 999 ->
  exists packet,
    writes (events (exchange host data st)) = [packet]
    /\ field packet 6 26
       = Singleton.next (Singleton.next (Singleton.sequenceNum (singleton st)))
    /\ Singleton.sequenceNum (singleton (final (exchange host data st)))
       = Singleton.next (Singleton.next (Singleton.sequenceNum (singleton st)))
    /\ result (exchange host data st)
       = Singleton.next (Singleton.sequenceNum (singleton st)).
Proof.
  intros Hs. pose proof (exchange_run data st) as E. cbv zeta in E.
  rewrite E. eexists. split; [reflexivity|]. split; [|split; reflexivity].
  rewrite sent_field by lia.
  match goal with
  | |- field (ITPResponse.assemblePacket ?a) _ _ = _ =>
      destruct (assemblePacket_fields a) as (_ & _ & _ & Q & _)
  end.
  cbv zeta in Q. rewrite Q, answer_sequence. cbn [singleton Singleton.sequenceNum].
  pose proof (next_range (Singleton.sequenceNum (singleton st))) as R1.
  pose proof (next_range (Singleton.next (Singleton.sequenceNum (singleton st)))) as R2.
  rewrite Z.abs_eq, Z.mod_small by lia. reflexivity.
Qed.

End ServerSession.

(* ================================================================== *)
(** * The server's answers *)
(* ================================================================== *)




(** C10.  An exchange draws two sequence numbers: the one logged when
    the connection is accepted, and the next one, which is the one in
    the sequence field of the packet sent.  The counter ends two steps
    on, the logged number is not the number sent, and the packet of the
    exchange served next carries the number two steps after this one. *)
Theorem C10_two_draws_per_exchange :
  forall host data data' st,
  1 <= Singleton.sequenceNum (ClientsHandler.singleton st) <= 999 ->
  let run := ClientsHandler.exchange host in
  let s0 := Singleton.sequenceNum (ClientsHandler.singleton st) in
  let r := run data st in
  let r' := run data' (ClientsHandler.final r) in
  exists packet packet',
    ClientsHandler.writes (ClientsHandler.events r) = [packet]
    /\ ClientsHandler.writes (ClientsHandler.events r') = [packet']
    /\ ClientsHandler.result r = Singleton.next s0
    /\ hd_error (ClientsHandler.events r)
       = Some (ClientsHandler.LogConnected
                 (Singleton.next s0)
                 (Singleton.timeMark (ClientsHandler.singleton st)))
    /\ field packet 6 26 = Singleton.next (Singleton.next s0)
    /\ Singleton.sequenceNum (ClientsHandler.singleton (ClientsHandler.final r))
       = Singleton.next (Singleton.next s0)
    /\ ClientsHandler.result r <> field packet 6 26
    /\ field packet' 6 26 = Singleton.next (Singleton.next (field packet 6 26)).
Proof.
  intros host data data' st Hs run s0 r r'.
  destruct (exchange_sequence_field host data st Hs) as (p & W & Q & F & R).
  fold run in W, Q, F, R. fold r in W, Q, F, R. fold s0 in Q, F, R.
  assert (H1 : 1 <= Singleton.next s0 <= 999) by (apply next_range; lia).
  assert (H2 : 1 <= Singleton.next (Singleton.next s0) <= 999)
    by (apply next_range; lia).
  destruct (exchange_sequence_field host data' (ClientsHandler.final r))
    as (p' & W' & Q' & _).
  { rewrite F. exact H2. }
  fold run in W', Q'. fold r' in W', Q'.
  exists p, p'. repeat split; try assumption.
  - unfold r, run. pose proof (exchange_run host data st) as E.
    cbv zeta in E. rewrite E. reflexivity.
  - rewrite R, Q. rewrite (next_cases (Singleton.next s0)) by assumption.
    destruct (Z.eqb_spec (Singleton.next s0) 999); lia.
  - rewrite Q', F, Q. reflexivity.
Qed.

Lemma C10_two_draws_per_exchange_witness :
  let run := ClientsHandler.exchange ClientsHandler.any_image in
  let st := ClientsHandler.mkServerState (Singleton.mkState 998 0)
                                         ITPResponse.responseDetails0 in
  let r := run [112; 0; 0; 0; 0; 0; 0; 5; 80; 0; 0; 1; 97] st in
  let r' := run [112; 0; 0; 0; 0; 0; 0; 6; 80; 0; 0; 1; 98]
                (ClientsHandler.final r) in
  exists packet packet',
    ClientsHandler.writes (ClientsHandler.events r) = [packet]
    /\ ClientsHandler.writes (ClientsHandler.events r') = [packet']
    /\ ClientsHandler.result r = 999
    /\ field packet 6 26 = 1
    /\ field packet' 6 26 = 3.
Proof.
  intros run st r r'.
  destruct (C10_two_draws_per_exchange ClientsHandler.any_image
              [112; 0; 0; 0; 0; 0; 0; 5; 80; 0; 0; 1; 97]
              [112; 0; 0; 0; 0; 0; 0; 6; 80; 0; 0; 1; 98]
              (ClientsHandler.mkServerState (Singleton.mkState 998 0)
                                            ITPResponse.responseDetails0))
    as (p & p' & W & W' & R & _ & Q & _ & _ & Q'); [cbn; lia|].
  exists p, p'. split; [exact W|]. split; [exact W'|].
  split; [exact R|]. split; [exact Q|].
  rewrite Q', Q. reflexivity.
Defined.

(** C2.  The time field of the response is not always the time field of
    the request: for the request below, whose time field holds
    4294967295, the server reads -1 and sends a response whose time
    field holds 1, on every file system and from every state. *)
Theorem C2_time_not_echoed_above_2_31 :
  forall host seq st,
  let data := [112; 0; 0; 0; 255; 255; 255; 255; 16; 0; 0; 1; 97] in
  field data 32 32 = 4294967295
  /\ ClientsHandler.timestamp (ClientsHandler.extractDetails data) = -1
  /\ exists packet,
       ClientsHandler.writes
         (ClientsHandler.events
            (ClientsHandler.onData host seq data st))
       = [packet]
       /\ field packet 32 32 = 1.
Proof.
  intros host seq st data.
  split; [reflexivity|]. split; [reflexivity|].
  destruct (response_time_field host seq data st) as (p & W & T).
  exists p. split; [exact W|]. rewrite T. reflexivity.
Qed.

(* ================================================================== *)
(** * Decoding: what the two sides read from a buffer *)
(* ================================================================== *)

Lemma bitAt_firstn n data j :
  0 <= j < 8 * Z.of_nat n -> bitAt (firstn n data) j = bitAt data j.
Proof.
  intros Hj. unfold bitAt, get, index.
  assert (0 <= j / 8 < Z.of_nat n)
    by (split; [apply Z.div_pos; lia | apply Z.div_lt_upper_bound; lia]).
  destruct (Z.ltb_spec (j / 8) 0); [lia|].
  rewrite nth_error_firstn.
  destruct (Nat.ltb_spec (Z.to_nat (j / 8)) n); [reflexivity | lia].
Qed.

Lemma field_header data off w :
  0 <= off -> off + w <= 96 ->
  field (slice data 0 12) off w = field data off w.
Proof.
  intros Hoff Hn. apply field_ext. intros k Hk.
  unfold slice. cbn [Z.to_nat Z.sub Z.opp Z.add skipn].
  apply (bitAt_firstn 12). lia.
Qed.

Lemma length_slice_from data s :
  0 <= s -> JS.length (slice_from data s) = Z.max 0 (JS.length data - s).
Proof.
  intros Hs. unfold slice_from, JS.length. rewrite length_skipn. lia.
Qed.

(** A slice that asks for more than the buffer has gives what there is. *)
Lemma slice_clamped data s e :
  0 <= s -> JS.length data <= e -> slice data s e = slice_from data s.
Proof.
  intros Hs He. unfold slice, slice_from. apply firstn_all2.
  rewrite length_skipn. unfold JS.length in He. lia.
Qed.

(** The server's reading of a request, field by field. *)
Lemma extractDetails_fields data :
  ClientsHandler.extractDetails data
  = ClientsHandler.mkDetails
      (field data 0 4)
      (toInt32 (field data 32 32))
      (field data 64 4)
      (Utf8.toString (slice data 12 (12 + field data 68 28))).
Proof.
  unfold ClientsHandler.extractDetails, ClientsHandler.getFileName.
  rewrite (extractDataBits_unsigned data 0 4),
    (extractDataBits_unsigned data 64 4),
    (extractDataBits_unsigned data 68 28),
    (extractDataBits_field data 32 32) by lia.
  reflexivity.
Qed.

(** The client's handling of a response, field by field. *)
Lemma handleResponse_fields imageName data :
  ImageClient.handleResponse imageName data
  = [ImageClient.LogPacketBits (slice data 0 12);
     ImageClient.LogServerSent
       (field data 0 4)
       (if field data 4 2 =? 1 then ImageClient.Found else ImageClient.NotFound)
       (field data 6 26)
       (toInt32 (field data 32 32));
     ImageClient.WriteFile imageName (slice_from data 12);
     ImageClient.OpenViewer imageName;
     ImageClient.SocketEnd].
Proof.
  unfold ImageClient.handleResponse, ImageClient.displayHeader,
    ImageClient.logPacketBits, ImageClient.processHeader, ImageClient.saveImage.
  rewrite (extractBits_eq _ 0 4), (extractBits_eq _ 4 2),
    (extractBits_eq _ 6 26), (extractBits_eq _ 32 32).
  rewrite (extractDataBits_unsigned _ 0 4), (extractDataBits_unsigned _ 4 2),
    (extractDataBits_unsigned _ 6 26), (extractDataBits_field _ 32 32) by lia.
  rewrite (field_header data 0 4), (field_header data 4 2),
    (field_header data 6 26), (field_header data 32 32) by lia.
  reflexivity.
Qed.



(** C5, as stated, fails: a request that declares a 5-byte name and
    carries 2 bytes of it is decoded, with the 2-byte name; a response
    that declares a 10-byte payload and carries 1 byte of it is
    handled, and the 1 byte is written to the file. *)
Lemma C5_counterexample :
  let request := [112; 0; 0; 0; 0; 0; 0; 5; 16; 0; 0; 5; 97; 98] in
  let response := [116; 0; 0; 3; 0; 0; 0; 5; 0; 0; 0; 10; 1] in
  (JS.length request < 12 + ClientsHandler.extractDataBits request 68 28
   /\ ClientsHandler.extractDetails request
      = ClientsHandler.mkDetails 7 5 1 [97; 98])
  /\ (JS.length response < 12 + ImageClient.extractBits response 64 32
      /\ filter ImageClient.writes_file
                (ImageClient.handleResponse [97] response)
         = [ImageClient.WriteFile [97] [1]]).
Proof. vm_compute. repeat split. Qed.

(** C5, amended.  A buffer shorter than 12 plus the length its header
    declares is decoded all the same, by the server as a request and by
    the client as a response; no error is raised.  Header bits the
    buffer does not have read as 0, and the payload is cut short: the
    file name is decoded from the bytes there are behind the first
    twelve, and the file written holds the bytes there are behind the
    first twelve. *)
Theorem C5_short_buffers_are_decoded : forall request response imageName,
  JS.length request < 12 + ClientsHandler.extractDataBits request 68 28 ->
  JS.length response < 12 + field response 64 32 ->
  (ClientsHandler.extractDetails request
   = ClientsHandler.mkDetails
       (field request 0 4) (toInt32 (field request 32 32)) (field request 64 4)
       (Utf8.toString (slice_from request 12))
   /\ JS.length (slice_from request 12) = Z.max 0 (JS.length request - 12))
  /\ (filter ImageClient.writes_file (ImageClient.handleResponse imageName response)
      = [ImageClient.WriteFile imageName (slice_from response 12)]
      /\ JS.length (slice_from response 12) = Z.max 0 (JS.length response - 12)).
Proof.
  intros request response imageName Hreq Hresp.
  rewrite extractDataBits_unsigned in Hreq by lia.
  split; split.
  - rewrite extractDetails_fields, slice_clamped by lia. reflexivity.
  - apply length_slice_from. lia.
  - rewrite handleResponse_fields. reflexivity.
  - apply length_slice_from. lia.
Qed.

Lemma C5_short_buffers_are_decoded_witness :
  let request := [112; 0; 0; 0; 0; 0; 0; 5; 16; 0; 0; 5; 97; 98] in
  let response := [116; 0; 0; 3; 0; 0; 0; 5; 0; 0; 0; 10; 1] in
  ClientsHandler.extractDetails request
  = ClientsHandler.mkDetails
      (field request 0 4) (toInt32 (field request 32 32)) (field request 64 4)
      (Utf8.toString (slice_from request 12))
  /\ filter ImageClient.writes_file (ImageClient.handleResponse [97] response)
     = [ImageClient.WriteFile [97] (slice_from response 12)].
Proof.
  intros request response.
  destruct (C5_short_buffers_are_decoded request response [97])
    as [[H1 _] [H2 _]]; [vm_compute; reflexivity | vm_compute; reflexivity |].
  split; [exact H1 | exact H2].
Defined.

(* ================================================================== *)
(** * The request: name length and round trip *)
(* ================================================================== *)

(** C8.  The name length packed into a request is not always the number
    of name bytes the encoder places behind the header.  For the
    one-character name U+00E9, [calculateNameLength] counts 1 byte (the
    code unit 0xE9), the buffer gets 12 + 1 bytes, and [write], which
    needs the 2 bytes 0xC3 0xA9 for the character, writes none: the
    request declares a 1-byte name and carries the byte 0 the buffer
    was allocated with. *)
Theorem C8_name_length_mismatch :
  let fileName := [233] in
  ITPRequest.toByteArr fileName = Some [233]
  /\ ITPRequest.calculateNameLength fileName = Some 1
  /\ Utf8.written fileName 2 = [195; 169]
  /\ snd (Utf8.write (alloc (12 + 1)) fileName 12) = 0
  /\ ITPRequest.encodeRequest 7 0 5 1 fileName
     = Some [112; 0; 0; 0; 0; 0; 0; 5; 16; 0; 0; 1; 0]
  /\ option_map (fun p => field p 68 28)
                (ITPRequest.encodeRequest 7 0 5 1 fileName) = Some 1.
Proof. vm_compute. repeat split. Qed.

Section AsciiNames.
Import Utf8 ITPRequest.

Lemma ascii_not_surrogate u :
  0 <= u < 128 -> is_high u = false /\ is_low u = false.
Proof.
  intros H. unfold is_high, is_low.
  destruct (Z.leb_spec 0xD800 u), (Z.leb_spec 0xDC00 u); auto; lia.
Qed.

Lemma chars_ascii s : ascii s -> chars s = map (fun u => [u]) s.
Proof.
  induction 1 as [|u t Hu Ht IH]; [reflexivity|].
  cbn [chars map]. destruct t as [|v t'].
  - reflexivity.
  - destruct (ascii_not_surrogate u Hu) as [-> _]. cbn [andb].
    now rewrite IH.
Qed.

Lemma decompose_ascii u : 0 <= u < 128 -> decompose 4 u [] = Some [u].
Proof.
  intros H. cbn [decompose app].
  assert (E : sar u 8 = 0).
  { unfold sar. rewrite toInt32_small, shift_count by lia.
    rewrite Z.shiftr_div_pow2 by lia. apply Z.div_small.
    change (2 ^ 8) with 256. lia. }
  rewrite E. cbn [Z.eqb]. do 2 f_equal.
  unfold band. rewrite toInt32_small by lia.
  change (toInt32 255) with (Z.ones 8).
  rewrite Z.land_ones by lia. apply Z.mod_small.
  change (2 ^ 8) with 256. lia.
Qed.

Lemma toByteArr_loop_ascii s : forall acc,
  ascii s -> toByteArr_loop (map (fun u => [u]) s) acc = Some (acc ++ s).
Proof.
  induction s as [|u t IH]; intros acc H.
  - cbn. now rewrite app_nil_r.
  - inversion H as [|? ? Hu Ht]; subst.
    cbn [map toByteArr_loop charCodeAt0].
    rewrite decompose_ascii by assumption. cbn [rev app].
    rewrite IH by assumption. now rewrite <- app_assoc.
Qed.

(** On an ASCII name the byte array of [toByteArr] is the name. *)
Lemma toByteArr_ascii s : ascii s -> toByteArr s = Some s.
Proof.
  intros H. unfold toByteArr.
  rewrite chars_ascii by assumption.
  now rewrite toByteArr_loop_ascii.
Qed.

Lemma take_fitting_singletons s : forall room,
  JS.length s <= room -> take_fitting (map (fun u => [u]) s) room = s.
Proof.
  induction s as [|u t IH]; intros room H; [reflexivity|].
  cbn [map take_fitting]. unfold JS.length in *. cbn [List.length] in *.
  change (Z.of_nat 1) with 1.
  destruct (Z.leb_spec 1 room); [|lia].
  cbn [app]. f_equal. apply IH. lia.
Qed.

(** [write] stores an ASCII name as it is, when there is room. *)
Lemma written_ascii s room :
  ascii s -> JS.length s <= room -> written s room = s.
Proof.
  intros H Hroom. unfold written.
  rewrite chars_ascii, map_map by assumption.
  rewrite (map_ext_in _ (fun u => [u])).
  - now apply take_fitting_singletons.
  - intros u Hu. unfold ascii in H. rewrite Forall_forall in H.
    specialize (H u Hu). cbn [scalar].
    destruct (ascii_not_surrogate u H) as [-> ->]. cbn [orb].
    unfold encode_scalar. destruct (Z.ltb_spec u 0x80); [reflexivity | lia].
Qed.

Lemma scalars_ascii s : ascii s -> scalars s 0 0 0x80 0xBF = s.
Proof.
  induction 1 as [|u t Hu Ht IH]; [reflexivity|].
  cbn [scalars Z.eqb]. unfold start.
  destruct (Z.leb_spec u 0x7F); [|lia]. now rewrite IH.
Qed.

(** [toString] reads ASCII bytes back as they are. *)
Lemma toString_ascii s : ascii s -> Utf8.toString s = s.
Proof.
  intros H. unfold Utf8.toString. rewrite scalars_ascii by assumption.
  induction H as [|u t Hu Ht IH]; [reflexivity|].
  cbn [flat_map]. rewrite IH. unfold units.
  destruct (Z.ltb_spec u 0x10000); [reflexivity | lia].
Qed.

(** The request buffer: a header whose fields hold the low bits of the
    magnitudes of the packet details, and what [write] makes of the
    name behind it. *)
Lemma getPacket_fields p :
  0 <= nameLength p ->
  exists header,
    getPacket p = fst (Utf8.write header (imgName p) 12)
    /\ JS.length header = 12 + nameLength p
    /\ field header 0 4 = Z.abs (version p) mod 2 ^ 4
    /\ field header 30 2 = Z.abs (actionType p) mod 2 ^ 2
    /\ field header 32 32 = Z.abs (timeMark p) mod 2 ^ 32
    /\ field header 64 4 = Z.abs (imgType p) mod 2 ^ 4
    /\ field header 68 28 = Z.abs (nameLength p) mod 2 ^ 28.
Proof.
  intros Hn. unfold getPacket.
  set (b0 := alloc (12 + nameLength p)).
  set (b1 := insertData b0 (version p) 0 4).
  set (b2 := insertData b1 (actionType p) 30 2).
  set (b3 := insertData b2 (timeMark p) 32 32).
  set (b4 := insertData b3 (imgType p) 64 4).
  set (b5 := insertData b4 (nameLength p) 68 28).
  assert (L0 : JS.length b0 = 12 + nameLength p)
    by (apply length_alloc; lia).
  assert (L1 : JS.length b1 = 12 + nameLength p)
    by (unfold b1; now rewrite length_insertData).
  assert (L2 : JS.length b2 = 12 + nameLength p)
    by (unfold b2; now rewrite length_insertData).
  assert (L3 : JS.length b3 = 12 + nameLength p)
    by (unfold b3; now rewrite length_insertData).
  assert (L4 : JS.length b4 = 12 + nameLength p)
    by (unfold b4; now rewrite length_insertData).
  assert (L5 : JS.length b5 = 12 + nameLength p)
    by (unfold b5; now rewrite length_insertData).
  assert (S1 : stores b0 b1 (version p) 0 4)
    by (apply insertData_stores; lia).
  assert (S2 : stores b1 b2 (actionType p) 30 2)
    by (apply insertData_stores; lia).
  assert (S3 : stores b2 b3 (timeMark p) 32 32)
    by (apply insertData_stores; lia).
  assert (S4 : stores b3 b4 (imgType p) 64 4)
    by (apply insertData_stores; lia).
  assert (S5 : stores b4 b5 (nameLength p) 68 28)
    by (apply insertData_stores; lia).
  exists b5. split; [reflexivity|]. split; [exact L5|]. repeat split.
  - rewrite (stores_other _ _ _ _ _ _ _ S5), (stores_other _ _ _ _ _ _ _ S4),
      (stores_other _ _ _ _ _ _ _ S3), (stores_other _ _ _ _ _ _ _ S2) by lia.
    apply (stores_same _ _ _ _ _ S1); lia.
  - rewrite (stores_other _ _ _ _ _ _ _ S5), (stores_other _ _ _ _ _ _ _ S4),
      (stores_other _ _ _ _ _ _ _ S3) by lia.
    apply (stores_same _ _ _ _ _ S2); lia.
  - rewrite (stores_other _ _ _ _ _ _ _ S5), (stores_other _ _ _ _ _ _ _ S4)
      by lia.
    apply (stores_same _ _ _ _ _ S3); lia.
  - rewrite (stores_other _ _ _ _ _ _ _ S5) by lia.
    apply (stores_same _ _ _ _ _ S4); lia.
  - apply (stores_same _ _ _ _ _ S5); lia.
Qed.

(** Writing an ASCII name of the announced length behind the header
    gives the twelve header bytes followed by the name. *)
Lemma write_ascii_name header name :
  ascii name -> JS.length header = 12 + JS.length name ->
  fst (Utf8.write header name 12) = firstn 12 header ++ name.
Proof.
  intros Ha L. unfold Utf8.write. cbn [fst].
  rewrite written_ascii by (try assumption; lia).
  rewrite skipn_all2, app_nil_r; [reflexivity|].
  unfold JS.length in L. lia.
Qed.

End AsciiNames.

Lemma length_firstn_12 (h : Buffer) :
  12 <= JS.length h -> JS.length (firstn 12 h) = 12.
Proof.
  unfold JS.length. intros H. rewrite length_firstn. lia.
Qed.

Lemma field_packet h name off w :
  12 <= JS.length h -> 0 <= off -> off + w <= 96 ->
  field (firstn 12 h ++ name) off w = field h off w.
Proof.
  intros L Hoff Hw.
  rewrite field_app by (try rewrite length_firstn_12; lia).
  apply (field_header h off w); assumption.
Qed.

Lemma slice_name h (name : Buffer) :
  12 <= JS.length h ->
  slice (firstn 12 h ++ name) 12 (12 + JS.length name) = name.
Proof.
  intros L. unfold slice.
  replace (Z.to_nat (12 + JS.length name - 12)) with (List.length name)
    by (unfold JS.length; lia).
  rewrite skipn_app.
  pose proof (length_firstn_12 h L) as L12. unfold JS.length in L12.
  rewrite skipn_all2 by lia.
  replace (Z.to_nat 12 - List.length (firstn 12 h))%nat with 0%nat by lia.
  cbn [skipn app]. apply firstn_all.
Qed.

(** C1, as stated, fails, in three ways.  A time mark with the top bit
    set comes back negative: 4294967295 is decoded as -1.  A name with a
    character outside ASCII does not come back: U+00E9 is decoded as
    U+0000.  And the action type is not part of what the server decodes:
    two requests that differ in it alone are decoded to the same
    details. *)
Lemma C1_counterexample :
  option_map ClientsHandler.extractDetails
             (ITPRequest.encodeRequest 7 0 4294967295 1 [97])
  = Some (ClientsHandler.mkDetails 7 (-1) 1 [97])
  /\ option_map ClientsHandler.extractDetails
                (ITPRequest.encodeRequest 7 0 5 1 [233])
     = Some (ClientsHandler.mkDetails 7 5 1 [0])
  /\ option_map ClientsHandler.extractDetails
                (ITPRequest.encodeRequest 7 0 5 1 [97])
     = option_map ClientsHandler.extractDetails
                  (ITPRequest.encodeRequest 7 1 5 1 [97]).
Proof. vm_compute. repeat split. Qed.

(** C1, amended.  For every version and image type below 16, action
    type below 4, time mark below 2^31 and ASCII file name shorter than
    2^28, the request is encoded, in 12 bytes plus one byte per
    character, and the server decodes from it the same version, time
    mark, image type and file name.  The action type is in bits 30 and
    31 of the buffer; the details the server extracts do not include
    it. *)
Theorem C1_request_round_trip :
  forall version actionType timeMark imgType fileName,
  0 <= version < 2 ^ 4 -> 0 <= actionType < 2 ^ 2 ->
  0 <= timeMark < 2 ^ 31 -> 0 <= imgType < 2 ^ 4 ->
  ascii fileName -> JS.length fileName < 2 ^ 28 ->
  exists packet,
    ITPRequest.encodeRequest version actionType timeMark imgType fileName
    = Some packet
    /\ JS.length packet = 12 + JS.length fileName
    /\ ClientsHandler.extractDetails packet
       = ClientsHandler.mkDetails version timeMark imgType fileName
    /\ field packet 30 2 = actionType.
Proof.
  intros version actionType timeMark imgType fileName Hv Ha Ht Hi Hascii Hlen.
  assert (Hn : 0 <= JS.length fileName) by (unfold JS.length; lia).
  unfold ITPRequest.encodeRequest, ITPRequest.initialize,
    ITPRequest.calculateNameLength.
  rewrite toByteArr_ascii by assumption. cbn [option_map].
  destruct (getPacket_fields
              (ITPRequest.mkPacketDetails version actionType timeMark imgType
                                          fileName (JS.length fileName)))
    as (h & E & L & F0 & F30 & F32 & F64 & F68); [exact Hn|].
  cbn [ITPRequest.version ITPRequest.actionType ITPRequest.timeMark
       ITPRequest.imgType ITPRequest.imgName ITPRequest.nameLength] in *.
  rewrite E, write_ascii_name by assumption.
  exists (firstn 12 h ++ fileName).
  assert (L12 : 12 <= JS.length h) by lia.
  split; [reflexivity|]. split; [|split].
  - unfold JS.length at 1. rewrite length_app.
    pose proof (length_firstn_12 h L12) as Q. unfold JS.length in Q |- *. lia.
  - rewrite extractDetails_fields.
    rewrite !field_packet by lia.
    rewrite F0, F32, F64, F68.
    rewrite !Z.abs_eq, !Z.mod_small by lia.
    rewrite slice_name, toString_ascii, toInt32_small by (assumption || lia).
    reflexivity.
  - rewrite field_packet, F30, Z.abs_eq, Z.mod_small by lia. reflexivity.
Qed.

Lemma C1_request_round_trip_witness :
  exists packet,
    ITPRequest.encodeRequest 7 0 2147483647 15 [112; 104; 111; 116; 111]
    = Some packet
    /\ JS.length packet = 12 + JS.length [112; 104; 111; 116; 111]
    /\ ClientsHandler.extractDetails packet
       = ClientsHandler.mkDetails 7 2147483647 15 [112; 104; 111; 116; 111]
    /\ field packet 30 2 = 0.
Proof.
  apply (C1_request_round_trip 7 0 2147483647 15 [112; 104; 111; 116; 111]);
    try lia.
  - repeat constructor; lia.
  - vm_compute. reflexivity.
Defined.

(* ================================================================== *)
(** * [toByteArr] returns on every string *)
(* ================================================================== *)

Section ToByteArrReturns.
Import Utf8 ITPRequest.

Lemma sar_8 x : 0 <= x < 2 ^ 31 -> sar x 8 = x / 256.
Proof.
  intros H. unfold sar. rewrite toInt32_small, shift_count by lia.
  now rewrite Z.shiftr_div_pow2 by lia.
Qed.

(** The loop ends within four rounds on every code that is not
    negative as a signed 32-bit integer; a code unit is below 2^16. *)
Lemma decompose_returns code acc :
  0 <= code < 2 ^ 31 -> exists bytes, decompose 4 code acc = Some bytes.
Proof.
  intros H. cbn [decompose].
  assert (H1 : 0 <= code / 256 < 2 ^ 31)
    by (split; [apply Z.div_pos | apply Z.div_lt_upper_bound]; lia).
  assert (H2 : 0 <= code / 256 / 256 < 2 ^ 31)
    by (split; [apply Z.div_pos | apply Z.div_lt_upper_bound]; lia).
  assert (H3 : 0 <= code / 256 / 256 / 256 < 2 ^ 31)
    by (split; [apply Z.div_pos | apply Z.div_lt_upper_bound]; lia).
  rewrite (sar_8 code) by assumption.
  destruct (Z.eqb_spec (code / 256) 0); [eexists; reflexivity|].
  rewrite (sar_8 (code / 256)) by assumption.
  destruct (Z.eqb_spec (code / 256 / 256) 0); [eexists; reflexivity|].
  rewrite (sar_8 (code / 256 / 256)) by assumption.
  destruct (Z.eqb_spec (code / 256 / 256 / 256) 0); [eexists; reflexivity|].
  rewrite (sar_8 (code / 256 / 256 / 256)) by assumption.
  destruct (Z.eqb_spec (code / 256 / 256 / 256 / 256) 0) as [|Hne];
    [eexists; reflexivity|].
  exfalso. apply Hne.
  rewrite !Z.div_div by lia. apply Z.div_small. lia.
Qed.

Lemma chars_pair u v t :
  chars (u :: v :: t)
  = if is_high u && is_low v then [u; v] :: chars t else [u] :: chars (v :: t).
Proof. reflexivity. Qed.

Lemma chars_code_units n : forall s,
  (List.length s <= n)%nat -> Forall code_unit s ->
  Forall (fun c => code_unit (charCodeAt0 c)) (chars s).
Proof.
  induction n as [|n IH]; intros s Hn Hs.
  - destruct s; [constructor | cbn in Hn; lia].
  - destruct s as [|u [|v t]].
    + constructor.
    + inversion Hs; subst. constructor; [assumption | constructor].
    + inversion Hs as [|? ? Hu Hvt]; subst.
      inversion Hvt as [|? ? Hv Ht]; subst.
      cbn [List.length] in Hn. rewrite chars_pair.
      destruct (is_high u && is_low v).
      * constructor; [exact Hu|]. apply IH; [lia | assumption].
      * constructor; [exact Hu|]. apply IH; [cbn [List.length]; lia | assumption].
Qed.

Lemma toByteArr_loop_returns cs : forall acc,
  Forall (fun c => code_unit (charCodeAt0 c)) cs ->
  exists bytes, toByteArr_loop cs acc = Some bytes.
Proof.
  induction cs as [|c r IH]; intros acc H.
  - eexists. reflexivity.
  - inversion H as [|? ? Hc Hr]; subst. cbn [toByteArr_loop].
    destruct (decompose_returns (charCodeAt0 c) []) as [bytes E].
    { unfold code_unit in Hc.
      assert (2 ^ 16 < 2 ^ 31) by (apply Z.pow_lt_mono_r; lia). lia. }
    rewrite E. apply IH. assumption.
Qed.

Lemma toByteArr_returns s :
  Forall code_unit s -> exists bytes, toByteArr s = Some bytes.
Proof.
  intros H. apply toByteArr_loop_returns.
  apply (chars_code_units (List.length s)); [lia | assumption].
Qed.

End ToByteArrReturns.

(** On an ASCII name the two byte counts agree: the length announced is
    the number of bytes written behind the header. *)
Lemma name_length_exact_ascii name :
  ascii name ->
  ITPRequest.calculateNameLength name = Some (JS.length name)
  /\ snd (Utf8.write (alloc (12 + JS.length name)) name 12) = JS.length name.
Proof.
  intros H. split.
  - unfold ITPRequest.calculateNameLength. now rewrite toByteArr_ascii.
  - unfold Utf8.write. cbn [snd].
    assert (0 <= JS.length name) by (unfold JS.length; lia).
    rewrite length_alloc by lia.
    rewrite written_ascii by (try assumption; lia). reflexivity.
Qed.

(* ================================================================== *)
(** * More on the bit packer *)
(* ================================================================== *)

Lemma toInt32_unsigned v :
  0 <= v < 2 ^ 32 -> toInt32 v = if 2 ^ 31 <=? v then v - 2 ^ 32 else v.
Proof.
  intros H. unfold toInt32.
  change (2 ^ 31) with 2147483648 in *. change (2 ^ 32) with 4294967296 in *.
  destruct (Z.leb_spec 2147483648 v).
  - replace (v + 2147483648) with (v - 2147483648 + 1 * 4294967296) by lia.
    rewrite Z.mod_add, Z.mod_small; lia.
  - rewrite Z.mod_small; lia.
Qed.

(** X1.  Reading back a field that was just written gives the value
    written: on the request side ([insertData] then the server's
    [extractDataBits]) and on the response side ([encodeBitSection]
    then the client's [extractBits]).  A field narrower than 32 bits
    comes back as it is; a 32-bit field comes back as a signed number,
    so a value from 2^31 on comes back lowered by 2^32. *)
Theorem X1_read_after_write : forall b v off w,
  0 <= off -> 0 <= w <= 32 -> off + w <= 8 * JS.length b -> 0 <= v < 2 ^ w ->
  let back := if 2 ^ 31 <=? v then v - 2 ^ 32 else v in
  ClientsHandler.extractDataBits (ITPRequest.insertData b v off w) off w = back
  /\ ImageClient.extractBits (ITPResponse.encodeBitSection b v off w) off w = back
  /\ (w < 32 -> back = v).
Proof.
  intros b v off w Hoff Hw Hcap Hv back.
  assert (H32 : 2 ^ w <= 2 ^ 32) by (apply Z.pow_le_mono_r; lia).
  pose proof (insertData_stores b v off w Hoff (proj1 Hw) Hcap) as S1.
  pose proof (encodeBitSection_stores b v off w Hoff (proj1 Hw) Hcap) as S2.
  split; [|split].
  - rewrite extractDataBits_field by assumption.
    rewrite (stores_same _ _ _ _ _ S1), Z.abs_eq, Z.mod_small by lia.
    apply toInt32_unsigned. lia.
  - rewrite extractBits_eq, extractDataBits_field by assumption.
    rewrite (stores_same _ _ _ _ _ S2), Z.abs_eq, Z.mod_small by lia.
    apply toInt32_unsigned. lia.
  - intros Hlt. unfold back.
    assert (2 ^ w <= 2 ^ 31) by (apply Z.pow_le_mono_r; lia).
    destruct (Z.leb_spec (2 ^ 31) v); [lia | reflexivity].
Qed.

Lemma X1_read_after_write_witness :
  ClientsHandler.extractDataBits
    (ITPRequest.insertData (repeat 255 12) 4294967295 32 32) 32 32 = -1
  /\ ImageClient.extractBits
       (ITPResponse.encodeBitSection (repeat 255 12) 999 6 26) 6 26 = 999.
Proof.
  split.
  - destruct (X1_read_after_write (repeat 255 12) 4294967295 32 32) as [H _];
      [lia | lia | vm_compute; discriminate | vm_compute; intuition discriminate |].
    exact H.
  - destruct (X1_read_after_write (repeat 255 12) 999 6 26) as (_ & H & _);
      [lia | lia | vm_compute; discriminate | vm_compute; intuition discriminate |].
    exact H.
Defined.



Lemma insertData_loop_ext n : forall b s s' idx idx' i,
  (forall k, 0 <= k < Z.of_nat n ->
             is_one (index s (idx - k)) = is_one (index s' (idx' - k))) ->
  ITPRequest.insertData_loop n b s idx i
  = ITPRequest.insertData_loop n b s' idx' i.
Proof.
  induction n as [|n IH]; intros b s s' idx idx' i H; [reflexivity|].
  cbn [ITPRequest.insertData_loop].
  pose proof (H 0) as H0. rewrite !Z.sub_0_r in H0.
  rewrite H0 by lia. apply IH.
  intros k Hk. replace (idx - 1 - k) with (idx - (k + 1)) by lia.
  replace (idx' - 1 - k) with (idx' - (k + 1)) by lia.
  apply H. lia.
Qed.

Lemma encodeBitSection_insertData b v off w :
  ITPResponse.encodeBitSection b v off w = ITPRequest.insertData b v off w.
Proof.
  unfold ITPResponse.encodeBitSection, ITPRequest.insertData.
  rewrite encodeBitSection_loop_eq.
  apply insertData_loop_ext. intros k Hk.
  change (is_one (index (toString2 v) (JS.length (toString2 v) - 1 - k)))
    with (digit_bit (toString2 v) k).
  change (is_one (index (padStart (toString2 v) w ch_0)
                        (JS.length (padStart (toString2 v) w ch_0) - 1 - k)))
    with (digit_bit (padStart (toString2 v) w ch_0) k).
  rewrite digit_bit_plain, digit_bit_padStart by lia. reflexivity.
Qed.

(** X3.  The packers of the two sides are interchangeable.  For every
    buffer, every value, offset, width and end of field that numbers
    hold exactly ([exact]: strictly between -2^53 and 2^53), and every
    width up to 2^24 (a padded digit string far below the longest
    string), in the buffer or outside it,
    [encodeBitSection] and [insertData] leave the same buffer, although
    one pads its digit string and the other reads past its start; and
    [extractBits] and [extractDataBits] return the same number. *)
Theorem X3_packers_agree : forall b v off w,
  exact v -> exact off -> exact w -> exact (off + w - 1) -> w <= 2 ^ 24 ->
  ITPResponse.encodeBitSection b v off w = ITPRequest.insertData b v off w
  /\ ImageClient.extractBits b off w = ClientsHandler.extractDataBits b off w.
Proof.
  intros b v off w _ _ _ _ _. split;
    [apply encodeBitSection_insertData | apply extractBits_eq].
Qed.

Lemma X3_packers_agree_witness :
  ITPResponse.encodeBitSection [255; 255; 255] (-5) 20 8
  = ITPRequest.insertData [255; 255; 255] (-5) 20 8
  /\ ImageClient.extractBits [255; 255; 255] 20 8
     = ClientsHandler.extractDataBits [255; 255; 255] 20 8.
Proof.
  apply (X3_packers_agree [255; 255; 255] (-5) 20 8).
  - unfold exact. split; reflexivity.
  - unfold exact. split; reflexivity.
  - unfold exact. split; reflexivity.
  - unfold exact. split; reflexivity.
  - vm_compute. discriminate.
Defined.







Lemma set_nat_beyond b : forall i v,
  (List.length b <= i)%nat -> set_nat b i v = b.
Proof.
  induction b as [|h t IH]; intros [|i] v H; cbn in *; try lia; auto.
  f_equal. apply IH. lia.
Qed.

Lemma set_outside b i v : i < 0 \/ JS.length b <= i -> set b i v = b.
Proof.
  intros H. unfold set, JS.length in *.
  destruct (Z.ltb_spec i 0); [reflexivity|].
  apply set_nat_beyond. lia.
Qed.

Lemma insertData_loop_outside n : forall b s idx i,
  i < 0 \/ 8 * JS.length b <= i - Z.of_nat n + 1 ->
  ITPRequest.insertData_loop n b s idx i = b.
Proof.
  induction n as [|n IH]; intros b s idx i H; [reflexivity|].
  cbn [ITPRequest.insertData_loop].
  assert (E : forall x, set b (floor_div i 8) x = b).
  { intros x. apply set_outside. unfold floor_div.
    destruct H as [H|H].
    - left. apply Z.div_lt_upper_bound; lia.
    - right. apply Z.div_le_lower_bound; lia. }
  destruct (is_one (index s idx)); rewrite E; apply IH; lia.
Qed.

(** X5.  A field written outside the buffer is dropped: nothing is
    raised and the buffer does not grow.  For every value, offset, width
    and end of field that numbers hold exactly ([exact]: strictly
    between -2^53 and 2^53) and every width up to 2^24,
    both writers keep the buffer's length, and return the buffer
    unchanged when the field lies behind its end or before its
    start. *)
Theorem X5_write_outside_is_dropped : forall b v off w,
  exact v -> exact off -> exact w -> exact (off + w - 1) -> w <= 2 ^ 24 ->
  JS.length (ITPRequest.insertData b v off w) = JS.length b
  /\ JS.length (ITPResponse.encodeBitSection b v off w) = JS.length b
  /\ (off + w <= 0 \/ 8 * JS.length b <= off ->
      ITPRequest.insertData b v off w = b
      /\ ITPResponse.encodeBitSection b v off w = b).
Proof.
  intros b v off w _ _ _ _ _.
  split; [apply length_insertData|]. split; [apply length_encodeBitSection|].
  intros H.
  assert (E : ITPRequest.insertData b v off w = b).
  { unfold ITPRequest.insertData. destruct (Z.le_gt_cases 0 w).
    - apply insertData_loop_outside. rewrite Z2Nat.id by assumption. lia.
    - replace (Z.to_nat w) with 0%nat by lia. reflexivity. }
  split; [exact E|].
  rewrite encodeBitSection_insertData. exact E.
Qed.

Lemma X5_write_outside_is_dropped_witness :
  ITPRequest.insertData [1; 2; 3] 255 24 8 = [1; 2; 3]
  /\ ITPResponse.encodeBitSection [1; 2; 3] 255 24 8 = [1; 2; 3].
Proof.
  refine (proj2 (proj2 (X5_write_outside_is_dropped [1; 2; 3] 255 24 8 _ _ _ _ _)) _).
  - unfold exact. split; reflexivity.
  - unfold exact. split; reflexivity.
  - unfold exact. split; reflexivity.
  - unfold exact. split; reflexivity.
  - vm_compute. discriminate.
  - right. cbn. lia.
Defined.

Lemma field_nat_front b n : forall off,
  field_nat b off (S n)
  = Z.b2z (bitAt b off) * 2 ^ Z.of_nat n + field_nat b (off + 1) n.
Proof.
  induction n as [|n IH]; intros off.
  - cbn [field_nat Z.of_nat]. rewrite Z.add_0_r, Z.pow_0_r. lia.
  - change (field_nat b off (S (S n)))
      with (2 * field_nat b off (S n) + Z.b2z (bitAt b (off + Z.of_nat (S n)))).
    rewrite IH. cbn [field_nat].
    rewrite (Nat2Z.inj_succ n), Z.pow_succ_r by lia.
    replace (off + 1 + Z.of_nat n) with (off + Z.succ (Z.of_nat n)) by lia.
    lia.
Qed.

(** X6.  The range of what a reader returns.  A field of fewer than 32
    bits is returned as a number from 0 to 2^w - 1.  A field of 32 bits
    is returned as a signed 32-bit number: it is negative exactly when
    the first bit of the field is set, and it is the field's unsigned
    value lowered by 2^32 in that case. *)
Theorem X6_read_range_and_sign : forall b off,
  0 <= off ->
  (forall w, 0 <= w < 32 ->
             0 <= ClientsHandler.extractDataBits b off w < 2 ^ w)
  /\ - 2 ^ 31 <= ClientsHandler.extractDataBits b off 32 < 2 ^ 31
  /\ (ClientsHandler.extractDataBits b off 32 < 0 <-> bitAt b off = true)
  /\ ClientsHandler.extractDataBits b off 32
     = field b off 32 - (if bitAt b off then 2 ^ 32 else 0).
Proof.
  intros b off Hoff.
  assert (T : field b off 32
              = Z.b2z (bitAt b off) * 2147483648 + field_nat b (off + 1) 31)
    by apply (field_nat_front b 31 off).
  pose proof (field_nat_range b (off + 1) 31) as R.
  change (2 ^ Z.of_nat 31) with 2147483648 in R.
  assert (E : ClientsHandler.extractDataBits b off 32
              = field b off 32 - (if bitAt b off then 2 ^ 32 else 0)).
  { rewrite extractDataBits_field by assumption.
    change (2 ^ 32) with 4294967296.
    rewrite toInt32_unsigned
      by (change (2 ^ 32) with 4294967296; rewrite T;
          destruct (bitAt b off); cbn [Z.b2z]; lia).
    change (2 ^ 31) with 2147483648. change (2 ^ 32) with 4294967296.
    rewrite T. destruct (bitAt b off); cbn [Z.b2z].
    - destruct (Z.leb_spec 2147483648 (1 * 2147483648 + field_nat b (off + 1) 31));
        lia.
    - destruct (Z.leb_spec 2147483648 (0 * 2147483648 + field_nat b (off + 1) 31));
        lia. }
  split; [|split; [|split]].
  - intros w Hw. rewrite extractDataBits_unsigned by lia.
    apply field_range. lia.
  - rewrite extractDataBits_field by assumption. apply toInt32_range.
  - rewrite E, T. change (2 ^ 32) with 4294967296.
    destruct (bitAt b off); cbn [Z.b2z]; split; intros; try lia; congruence.
  - exact E.
Qed.

Lemma X6_read_range_and_sign_witness :
  ClientsHandler.extractDataBits [0; 0; 0; 0; 128; 0; 0; 0] 32 32 < 0.
Proof.
  destruct (X6_read_range_and_sign [0; 0; 0; 0; 128; 0; 0; 0] 32) as (_ & _ & H & _);
    [lia|].
  apply H. reflexivity.
Defined.

Lemma byte_ext x y :
  0 <= x < 256 -> 0 <= y < 256 ->
  (forall k, 0 <= k < 8 -> Z.testbit x k = Z.testbit y k) -> x = y.
Proof.
  intros Hx Hy H. apply Z.bits_inj'. intros n Hn.
  destruct (Z.lt_ge_cases n 8) as [L|G]; [apply H; lia|].
  rewrite <- (Z.mod_small x (2 ^ 8)), <- (Z.mod_small y (2 ^ 8))
    by (change (2 ^ 8) with 256; lia).
  now rewrite !Z.mod_pow2_bits_high by lia.
Qed.

Lemma bitAt_head x t k : 0 <= k < 8 -> bitAt (x :: t) (7 - k) = Z.testbit x k.
Proof.
  intros Hk. unfold bitAt, get, index.
  rewrite Z.div_small, Z.mod_small by lia.
  replace (7 - (7 - k)) with k by lia. reflexivity.
Qed.

Lemma bitAt_tail x t j : 0 <= j -> bitAt (x :: t) (j + 8) = bitAt t j.
Proof.
  intros Hj. unfold bitAt, get, index.
  replace (j + 8) with (j + 1 * 8) by lia.
  rewrite Z.div_add, Z.mod_add by lia.
  assert (0 <= j / 8) by (apply Z.div_pos; lia).
  destruct (Z.ltb_spec (j / 8 + 1) 0), (Z.ltb_spec (j / 8) 0); try lia.
  replace (Z.to_nat (j / 8 + 1)) with (S (Z.to_nat (j / 8))) by lia.
  reflexivity.
Qed.

(** Two buffers of bytes with the same bits are the same buffer. *)
Lemma buffer_ext : forall b b',
  wf b -> wf b' -> JS.length b = JS.length b' ->
  (forall j, 0 <= j < 8 * JS.length b -> bitAt b j = bitAt b' j) ->
  b = b'.
Proof.
  induction b as [|x t IH]; intros [|y t'] Hb Hb' L H;
    unfold JS.length in *; cbn [List.length] in *; try lia; [reflexivity|].
  inversion Hb as [|? ? Hx Ht]; inversion Hb' as [|? ? Hy Ht']; subst.
  f_equal.
  - apply byte_ext; try assumption. intros k Hk.
    rewrite <- (bitAt_head x t k), <- (bitAt_head y t' k) by assumption.
    apply H. lia.
  - apply IH; try assumption; [unfold JS.length; lia|].
    intros j Hj. rewrite <- (bitAt_tail x t j), <- (bitAt_tail y t' j) by lia.
    apply H. unfold JS.length in Hj. lia.
Qed.

(** X7.  How field writes compose, on a buffer of bytes.  Writing a
    field twice leaves what the second write alone leaves: nothing of
    the first value survives.  Writing two fields that do not overlap
    gives the same buffer in either order. *)
Theorem X7_writes_compose : forall b v1 v2 off1 w1 off2 w2,
  wf b ->
  0 <= off1 -> 0 <= w1 -> off1 + w1 <= 8 * JS.length b ->
  0 <= off2 -> 0 <= w2 -> off2 + w2 <= 8 * JS.length b ->
  ITPRequest.insertData (ITPRequest.insertData b v1 off1 w1) v2 off1 w1
  = ITPRequest.insertData b v2 off1 w1
  /\ (off1 + w1 <= off2 \/ off2 + w2 <= off1 ->
      ITPRequest.insertData (ITPRequest.insertData b v1 off1 w1) v2 off2 w2
      = ITPRequest.insertData (ITPRequest.insertData b v2 off2 w2) v1 off1 w1).
Proof.
  intros b v1 v2 off1 w1 off2 w2 Hwf Ho1 Hw1 Hc1 Ho2 Hw2 Hc2.
  split.
  - apply buffer_ext.
    + now do 2 apply wf_insertData.
    + now apply wf_insertData.
    + now rewrite !length_insertData.
    + intros j Hj. rewrite !length_insertData in Hj.
      rewrite !bitAt_insertData by (rewrite ?length_insertData; lia).
      destruct ((off1 <=? j) && (j <? off1 + w1)); reflexivity.
  - intros Hd. apply buffer_ext.
    + now do 2 apply wf_insertData.
    + now do 2 apply wf_insertData.
    + now rewrite !length_insertData.
    + intros j Hj. rewrite !length_insertData in Hj.
      rewrite !bitAt_insertData by (rewrite ?length_insertData; lia).
      destruct (Z.leb_spec off1 j), (Z.ltb_spec j (off1 + w1)),
        (Z.leb_spec off2 j), (Z.ltb_spec j (off2 + w2));
        cbn [andb]; try reflexivity; lia.
Qed.

Lemma X7_writes_compose_witness :
  ITPRequest.insertData (ITPRequest.insertData (alloc 12) 15 0 4) 7 0 4
  = ITPRequest.insertData (alloc 12) 7 0 4
  /\ ITPRequest.insertData (ITPRequest.insertData (alloc 12) 15 0 4) 2 30 2
     = ITPRequest.insertData (ITPRequest.insertData (alloc 12) 2 30 2) 15 0 4.
Proof.
  destruct (X7_writes_compose (alloc 12) 15 7 0 4 30 2) as [H1 _];
    [repeat constructor; lia | lia | lia | vm_compute; discriminate
     | lia | lia | vm_compute; discriminate |].
  destruct (X7_writes_compose (alloc 12) 15 2 0 4 30 2) as [_ H2];
    [repeat constructor; lia | lia | lia | vm_compute; discriminate
     | lia | lia | vm_compute; discriminate |].
  split; [exact H1 | apply H2; lia].
Defined.

(* ================================================================== *)
(** * More on the sequence counter and the timer *)
(* ================================================================== *)

Lemma call_value_closed n st :
  1 <= Singleton.sequenceNum st <= 999 ->
  Singleton.call_value (S n) st
  = (Singleton.sequenceNum st + Z.of_nat n) mod 999 + 1.
Proof.
  intros H. unfold Singleton.call_value.
  replace (S n - 1)%nat with n by lia.
  rewrite getSequenceNumber_next. cbn [fst].
  rewrite calls_state by assumption.
  unfold Singleton.next, rem.
  pose proof (Z.mod_pos_bound (Singleton.sequenceNum st - 1 + Z.of_nat n) 999).
  rewrite Z.rem_mod_nonneg by lia.
  rewrite Zplus_mod_idemp_l. do 2 f_equal. lia.
Qed.

(** X8.  The numbers drawn are unique over a full cycle: from a counter
    in 1..999, any two of 999 calls in a row return different numbers,
    and the call 999 calls later returns the same number again. *)
Theorem X8_sequence_numbers_unique_per_cycle : forall st i j,
  1 <= Singleton.sequenceNum st <= 999 ->
  (i < j < i + 999)%nat ->
  Singleton.call_value (S i) st <> Singleton.call_value (S j) st
  /\ Singleton.call_value (S (i + 999)) st = Singleton.call_value (S i) st.
Proof.
  intros st i j Hs Hij. rewrite !call_value_closed by assumption. split.
  - intros E.
    pose proof (Z.div_mod (Singleton.sequenceNum st + Z.of_nat i) 999).
    pose proof (Z.div_mod (Singleton.sequenceNum st + Z.of_nat j) 999).
    lia.
  - rewrite Nat2Z.inj_add. change (Z.of_nat 999) with (1 * 999).
    rewrite Z.add_assoc, Z.mod_add by lia. reflexivity.
Qed.

Lemma X8_sequence_numbers_unique_per_cycle_witness :
  Singleton.call_value 1 (Singleton.mkState 999 0)
  <> Singleton.call_value 999 (Singleton.mkState 999 0).
Proof.
  apply (X8_sequence_numbers_unique_per_cycle (Singleton.mkState 999 0) 0 998);
    cbn; lia.
Defined.

Lemma calls_timeMark n : forall st,
  Singleton.timeMark (snd (Singleton.calls n st)) = Singleton.timeMark st.
Proof.
  induction n as [|n IH]; intros st; [reflexivity|].
  cbn [Singleton.calls]. rewrite getSequenceNumber_next.
  destruct (Singleton.calls n _) as [vs st2] eqn:E. cbn [snd].
  change st2 with (snd (vs, st2)). rewrite <- E, IH. reflexivity.
Qed.

Lemma ticks_sequenceNum n : forall st,
  Singleton.sequenceNum (Singleton.ticks n st) = Singleton.sequenceNum st.
Proof.
  induction n as [|n IH]; intros st; [reflexivity|].
  cbn [Singleton.ticks]. now rewrite IH.
Qed.

Lemma calls_values_depend_on_sequenceNum n : forall st st',
  Singleton.sequenceNum st = Singleton.sequenceNum st' ->
  fst (Singleton.calls n st) = fst (Singleton.calls n st').
Proof.
  induction n as [|n IH]; intros st st' H; [reflexivity|].
  cbn [Singleton.calls]. rewrite !getSequenceNumber_next, H.
  specialize (IH (Singleton.mkState (Singleton.next (Singleton.sequenceNum st'))
                                    (Singleton.timeMark st))
                 (Singleton.mkState (Singleton.next (Singleton.sequenceNum st'))
                                    (Singleton.timeMark st')) eq_refl).
  destruct (Singleton.calls n _) as [vs st2].
  destruct (Singleton.calls n _) as [vs' st2'].
  cbn [fst] in *. now rewrite IH.
Qed.

(** X9.  The counter and the timer do not disturb each other: drawing
    any number of sequence numbers leaves the timestamp as it was, and
    any number of timer ticks leaves the counter as it was, so the
    numbers drawn are the same whether or not the timer ticked. *)
Theorem X9_counter_and_timer_independent : forall m n st,
  Singleton.timeMark (snd (Singleton.calls m st)) = Singleton.timeMark st
  /\ Singleton.sequenceNum (Singleton.ticks n st) = Singleton.sequenceNum st
  /\ fst (Singleton.calls m (Singleton.ticks n st)) = fst (Singleton.calls m st).
Proof.
  intros m n st. split; [apply calls_timeMark|].
  split; [apply ticks_sequenceNum|].
  apply calls_values_depend_on_sequenceNum, ticks_sequenceNum.
Qed.

(* ================================================================== *)
(** * More on the request *)
(* ================================================================== *)

Section RequestFacts.
Import Utf8 ITPRequest.

Lemma band_255 x : 0 <= x < 2 ^ 31 -> band x 0xFF = x mod 256.
Proof.
  intros H. unfold band. rewrite toInt32_small by lia.
  change (toInt32 255) with (Z.ones 8).
  now rewrite Z.land_ones by lia.
Qed.

Lemma decompose_code_unit u :
  code_unit u -> decompose 4 u [] = Some (rev (be_bytes u)).
Proof.
  unfold code_unit. intros H.
  assert (H31 : 2 ^ 16 < 2 ^ 31) by (apply Z.pow_lt_mono_r; lia).
  change (2 ^ 16) with 65536 in *.
  unfold be_bytes. cbn [decompose app].
  rewrite (sar_8 u), (band_255 u) by lia.
  destruct (Z.ltb_spec u 256) as [L|G].
  - rewrite Z.div_small, Z.mod_small by lia. reflexivity.
  - assert (Hq : 1 <= u / 256 < 256).
    { split; [apply Z.div_le_lower_bound | apply Z.div_lt_upper_bound]; lia. }
    destruct (Z.eqb_spec (u / 256) 0); [lia|].
    rewrite (sar_8 (u / 256)), (band_255 (u / 256)) by lia.
    rewrite (Z.div_small (u / 256)), (Z.mod_small (u / 256)) by lia.
    reflexivity.
Qed.

Lemma toByteArr_loop_closed cs : forall acc,
  Forall (fun c => code_unit (charCodeAt0 c)) cs ->
  toByteArr_loop cs acc
  = Some (acc ++ flat_map (fun c => be_bytes (charCodeAt0 c)) cs).
Proof.
  induction cs as [|c r IH]; intros acc H.
  - cbn. now rewrite app_nil_r.
  - inversion H as [|? ? Hc Hr]; subst. cbn [toByteArr_loop flat_map].
    rewrite decompose_code_unit, rev_involutive by assumption.
    rewrite IH by assumption. now rewrite <- app_assoc.
Qed.

Lemma length_chars n : forall s,
  (List.length s <= n)%nat -> (List.length (chars s) <= List.length s)%nat.
Proof.
  induction n as [|n IH]; intros s Hn.
  - destruct s; [cbn; lia | cbn in Hn; lia].
  - destruct s as [|u [|v t]]; [cbn; lia | cbn; lia |].
    rewrite chars_pair. cbn [List.length] in Hn.
    destruct (is_high u && is_low v); cbn [List.length].
    + specialize (IH t). lia.
    + specialize (IH (v :: t)). cbn [List.length] in IH. lia.
Qed.

Lemma length_flat_map_be cs :
  Forall (fun c => code_unit (charCodeAt0 c)) cs ->
  (List.length cs
   <= List.length (flat_map (fun c => be_bytes (charCodeAt0 c)) cs)
   <= 2 * List.length cs)%nat
  /\ wf (flat_map (fun c => be_bytes (charCodeAt0 c)) cs).
Proof.
  induction 1 as [|c r Hc Hr IH]; [cbn; split; [lia | constructor]|].
  cbn [flat_map]. rewrite length_app. cbn [List.length].
  destruct IH as [IH W]. unfold code_unit in Hc. change (2 ^ 16) with 65536 in Hc.
  set (rest := flat_map (fun c => be_bytes (charCodeAt0 c)) r) in *.
  unfold be_bytes. destruct (Z.ltb_spec (charCodeAt0 c) 256).
  - split; [cbn [List.length]; lia|].
    apply Forall_app. split; [|exact W]. repeat constructor; lia.
  - split; [cbn [List.length]; lia|].
    apply Forall_app. split; [|exact W].
    assert (0 <= charCodeAt0 c / 256 < 256)
      by (split; [apply Z.div_pos | apply Z.div_lt_upper_bound]; lia).
    pose proof (Z.mod_pos_bound (charCodeAt0 c) 256).
    repeat constructor; lia.
Qed.

End RequestFacts.

Lemma calculateNameLength_bounds name :
  Forall code_unit name ->
  exists n, ITPRequest.calculateNameLength name = Some n
            /\ 0 <= n <= 2 * JS.length name.
Proof.
  intros Hs.
  pose proof (chars_code_units (List.length name) name (le_n _) Hs) as Hc.
  destruct (length_flat_map_be (Utf8.chars name) Hc) as [L _].
  pose proof (length_chars (List.length name) name (le_n _)) as Lc.
  eexists. split.
  - unfold ITPRequest.calculateNameLength, ITPRequest.toByteArr.
    rewrite toByteArr_loop_closed by assumption. reflexivity.
  - cbn [app]. unfold JS.length. lia.
Qed.

(** X10.  What [toByteArr] computes, and so what the name length of a
    request counts.  On every string it returns; each character the
    string iterator yields contributes the bytes of its first code
    unit, most significant first: one byte when the unit is below 256
    and two otherwise (a surrogate pair counts as its high surrogate
    alone).  The result is made of bytes, at least one per character
    and at most two per code unit. *)
Theorem X10_toByteArr_closed_form : forall s,
  Forall code_unit s ->
  let bytes := flat_map (fun c => be_bytes (Utf8.charCodeAt0 c)) (Utf8.chars s) in
  ITPRequest.toByteArr s = Some bytes
  /\ ITPRequest.calculateNameLength s = Some (JS.length bytes)
  /\ wf bytes
  /\ JS.length (Utf8.chars s) <= JS.length bytes <= 2 * JS.length s.
Proof.
  intros s Hs bytes.
  pose proof (chars_code_units (List.length s) s (le_n _) Hs) as Hc.
  assert (E : ITPRequest.toByteArr s = Some bytes)
    by (unfold ITPRequest.toByteArr; now rewrite toByteArr_loop_closed).
  destruct (length_flat_map_be (Utf8.chars s) Hc) as [L W]. fold bytes in L, W.
  pose proof (length_chars (List.length s) s (le_n _)) as Lc.
  split; [exact E|]. split; [|split; [exact W|]].
  - unfold ITPRequest.calculateNameLength. now rewrite E.
  - unfold JS.length. lia.
Qed.

Lemma X10_toByteArr_closed_form_witness :
  ITPRequest.toByteArr [97; 233; 8364; 55357; 56832]
  = Some [97; 233; 32; 172; 216; 61].
Proof.
  destruct (X10_toByteArr_closed_form [97; 233; 8364; 55357; 56832]) as [H _];
    [repeat constructor; unfold code_unit; lia|].
  rewrite H. reflexivity.
Defined.

Lemma take_fitting_length cs : forall room,
  0 <= room -> JS.length (Utf8.take_fitting cs room) <= room.
Proof.
  induction cs as [|c r IH]; intros room H; cbn [Utf8.take_fitting].
  - unfold JS.length. cbn. lia.
  - destruct (Z.leb_spec (JS.length c) room) as [L|G].
    + specialize (IH (room - JS.length c)).
      unfold JS.length in *. rewrite length_app. lia.
    + unfold JS.length. cbn. lia.
Qed.

(** [write] at offset 12 of a buffer of [12 + n] bytes: the first
    twelve bytes stay, [n] bytes follow, and at most [n] were written. *)
Lemma write_behind_header h name n :
  0 <= n -> JS.length h = 12 + n ->
  exists rest,
    fst (Utf8.write h name 12) = firstn 12 h ++ rest
    /\ JS.length rest = n
    /\ 0 <= snd (Utf8.write h name 12) <= n.
Proof.
  intros Hn L. unfold Utf8.write. cbn [fst snd].
  rewrite L. replace (12 + n - 12) with n by lia.
  pose proof (take_fitting_length
                (map (fun c => Utf8.encode_scalar (Utf8.scalar c)) (Utf8.chars name))
                n Hn) as Hw.
  fold (Utf8.written name n) in Hw.
  eexists. split; [reflexivity|]. split.
  - unfold JS.length in *. rewrite length_app, length_skipn. lia.
  - unfold JS.length in *. lia.
Qed.

Lemma bitAt_alloc n j : bitAt (alloc n) j = false.
Proof.
  unfold bitAt, get, index, alloc.
  destruct (j / 8 <? 0); [apply Z.bits_0|].
  destruct (nth_error _ _) as [x|] eqn:E; [|apply Z.bits_0].
  apply nth_error_In, repeat_spec in E. subst x. apply Z.bits_0.
Qed.

Lemma field_zero b off w :
  (forall k, 0 <= k < w -> bitAt b (off + k) = false) -> field b off w = 0.
Proof.
  intros H. unfold field.
  assert (H' : forall k, 0 <= k < Z.of_nat (Z.to_nat w) -> bitAt b (off + k) = false)
    by (intros k Hk; apply H; lia).
  clear H. induction (Z.to_nat w) as [|m IH]; [reflexivity|].
  cbn [field_nat]. rewrite IH, H' by (try (intros; apply H'); lia). reflexivity.
Qed.

(** The bits between the version and the action type are never
    written. *)
Lemma getPacket_reserved p name :
  0 <= ITPRequest.nameLength p ->
  field (firstn 12
           (ITPRequest.insertData
              (ITPRequest.insertData
                 (ITPRequest.insertData
                    (ITPRequest.insertData
                       (ITPRequest.insertData
                          (alloc (12 + ITPRequest.nameLength p))
                          (ITPRequest.version p) 0 4)
                       (ITPRequest.actionType p) 30 2)
                    (ITPRequest.timeMark p) 32 32)
                 (ITPRequest.imgType p) 64 4)
              (ITPRequest.nameLength p) 68 28) ++ name) 4 26 = 0.
Proof.
  intros Hn.
  set (b0 := alloc (12 + ITPRequest.nameLength p)).
  set (b1 := ITPRequest.insertData b0 (ITPRequest.version p) 0 4).
  set (b2 := ITPRequest.insertData b1 (ITPRequest.actionType p) 30 2).
  set (b3 := ITPRequest.insertData b2 (ITPRequest.timeMark p) 32 32).
  set (b4 := ITPRequest.insertData b3 (ITPRequest.imgType p) 64 4).
  set (b5 := ITPRequest.insertData b4 (ITPRequest.nameLength p) 68 28).
  assert (L0 : JS.length b0 = 12 + ITPRequest.nameLength p)
    by (apply length_alloc; lia).
  assert (L1 : JS.length b1 = 12 + ITPRequest.nameLength p)
    by (unfold b1; now rewrite length_insertData).
  assert (L2 : JS.length b2 = 12 + ITPRequest.nameLength p)
    by (unfold b2; now rewrite length_insertData).
  assert (L3 : JS.length b3 = 12 + ITPRequest.nameLength p)
    by (unfold b3; now rewrite length_insertData).
  assert (L4 : JS.length b4 = 12 + ITPRequest.nameLength p)
    by (unfold b4; now rewrite length_insertData).
  assert (L5 : JS.length b5 = 12 + ITPRequest.nameLength p)
    by (unfold b5; now rewrite length_insertData).
  rewrite field_packet by lia.
  rewrite (stores_other b4 b5 _ 68 28), (stores_other b3 b4 _ 64 4),
    (stores_other b2 b3 _ 32 32), (stores_other b1 b2 _ 30 2),
    (stores_other b0 b1 _ 0 4)
    by (try apply insertData_stores; lia).
  apply field_zero. intros k Hk. apply bitAt_alloc.
Qed.

(** X11.  The header of a request is right whatever the name is.  For
    every string as file name, ASCII or not, and every version, action
    type, time mark and image type that fit their fields, the encoder
    returns a buffer of 12 bytes plus the name length it computed,
    whose header fields hold the version, the action type, the time
    mark, the image type and the name length, with the 26 bits in
    between left 0; and [write] never stores more name bytes than the
    name length announces. *)
Theorem X11_request_header_well_formed :
  forall version actionType timeMark imgType name,
  0 <= version < 2 ^ 4 -> 0 <= actionType < 2 ^ 2 ->
  0 <= timeMark < 2 ^ 32 -> 0 <= imgType < 2 ^ 4 ->
  Forall code_unit name -> JS.length name < 2 ^ 27 ->
  exists packet n,
    ITPRequest.calculateNameLength name = Some n
    /\ ITPRequest.encodeRequest version actionType timeMark imgType name
       = Some packet
    /\ JS.length packet = 12 + n
    /\ field packet 0 4 = version
    /\ field packet 4 26 = 0
    /\ field packet 30 2 = actionType
    /\ field packet 32 32 = timeMark
    /\ field packet 64 4 = imgType
    /\ field packet 68 28 = n
    /\ 0 <= snd (Utf8.write (alloc (12 + n)) name 12) <= n.
Proof.
  intros version actionType timeMark imgType name Hv Ha Ht Hi Hname Hlen.
  destruct (calculateNameLength_bounds name Hname) as (n & En & Hn).
  change (2 ^ 27) with 134217728 in Hlen.
  assert (Hn28 : 0 <= n < 2 ^ 28) by (change (2 ^ 28) with 268435456; lia).
  unfold ITPRequest.encodeRequest, ITPRequest.initialize.
  rewrite En. cbn [option_map].
  set (p := ITPRequest.mkPacketDetails version actionType timeMark imgType name n).
  destruct (getPacket_fields p) as (h & E & L & F0 & F30 & F32 & F64 & F68);
    [cbn; lia|].
  pose proof (getPacket_reserved p) as R.
  cbn [ITPRequest.version ITPRequest.actionType ITPRequest.timeMark
       ITPRequest.imgType ITPRequest.imgName ITPRequest.nameLength p] in *.
  destruct (write_behind_header h name n (proj1 Hn28) L) as (rest & W & Lr & _).
  assert (L12 : 12 <= JS.length h) by lia.
  exists (ITPRequest.getPacket p), n.
  split; [reflexivity|]. split; [reflexivity|].
  assert (Ep : ITPRequest.getPacket p = firstn 12 h ++ rest) by (rewrite E; exact W).
  split.
  { rewrite Ep. unfold JS.length at 1. rewrite length_app.
    pose proof (length_firstn_12 h L12) as Q. unfold JS.length in *. lia. }
  split. { rewrite Ep, field_packet, F0, Z.abs_eq, Z.mod_small by lia. reflexivity. }
  split.
  { unfold ITPRequest.getPacket. cbn [ITPRequest.nameLength ITPRequest.imgName p].
    destruct (write_behind_header
                (ITPRequest.insertData
                   (ITPRequest.insertData
                      (ITPRequest.insertData
                         (ITPRequest.insertData
                            (ITPRequest.insertData (alloc (12 + n)) version 0 4)
                            actionType 30 2) timeMark 32 32) imgType 64 4)
                   n 68 28) name n (proj1 Hn28))
      as (rest' & W' & _ & _).
    { rewrite !length_insertData. apply length_alloc. lia. }
    cbn [ITPRequest.version ITPRequest.actionType ITPRequest.timeMark
         ITPRequest.imgType p].
    rewrite W'. apply (R rest'). lia. }
  split. { rewrite Ep, field_packet, F30, Z.abs_eq, Z.mod_small by lia. reflexivity. }
  split. { rewrite Ep, field_packet, F32, Z.abs_eq, Z.mod_small by lia. reflexivity. }
  split. { rewrite Ep, field_packet, F64, Z.abs_eq, Z.mod_small by lia. reflexivity. }
  split. { rewrite Ep, field_packet, F68, Z.abs_eq, Z.mod_small by lia. reflexivity. }
  destruct (write_behind_header (alloc (12 + n)) name n (proj1 Hn28))
    as (_ & _ & _ & B); [apply length_alloc; lia | exact B].
Qed.

Lemma X11_request_header_well_formed_witness :
  exists packet n,
    ITPRequest.calculateNameLength [233; 8364] = Some n
    /\ ITPRequest.encodeRequest 7 0 4294967295 1 [233; 8364] = Some packet
    /\ JS.length packet = 12 + n
    /\ field packet 0 4 = 7
    /\ field packet 4 26 = 0
    /\ field packet 30 2 = 0
    /\ field packet 32 32 = 4294967295
    /\ field packet 64 4 = 1
    /\ field packet 68 28 = n
    /\ 0 <= snd (Utf8.write (alloc (12 + n)) [233; 8364] 12) <= n.
Proof.
  apply (X11_request_header_well_formed 7 0 4294967295 1 [233; 8364]);
    try lia.
  - repeat constructor; unfold code_unit; lia.
  - vm_compute. reflexivity.
Defined.




(** The listener with a read that may throw: either the path exists
    and reading it throws, and the listener is left after its two log
    lines with nothing written, the connection not ended and the state
    as it was; or it runs to its end as [onData] does. *)
Lemma onData_exn_throws (host : ClientsHandler.Host) (throws : jsstring -> bool)
  (seq : Z) (data : Buffer) (st : ClientsHandler.ServerState) :
  ClientsHandler.existsSync host (ClientsHandler.requestedPath host data) = true ->
  throws (ClientsHandler.requestedPath host data) = true ->
  ClientsHandler.onData_exn host throws seq data st
  = (None, st,
     [ClientsHandler.LogPacket data;
      ClientsHandler.LogRequest seq (ClientsHandler.extractDetails data)
        (ClientsHandler.mapTypeToExtension
           (ClientsHandler.imageType (ClientsHandler.extractDetails data)))]).
Proof.
  intros He Ht.
  unfold ClientsHandler.onData_exn, ClientsHandler.handleData_exn,
    ClientsHandler.sendImageResponse_exn, ClientsHandler.requestedPath in *.
  unfold ClientsHandler.bindT, ClientsHandler.lift,
    ClientsHandler.logBinaryPacketHeader, ClientsHandler.logPacketDetails,
    ClientsHandler.emit.
  rewrite He, Ht. reflexivity.
Qed.

Lemma onData_exn_returns (host : ClientsHandler.Host) (throws : jsstring -> bool)
  (seq : Z) (data : Buffer) (st : ClientsHandler.ServerState) :
  (ClientsHandler.existsSync host (ClientsHandler.requestedPath host data) = true ->
   throws (ClientsHandler.requestedPath host data) = false) ->
  ClientsHandler.onData_exn host throws seq data st
  = (Some tt,
     ClientsHandler.final (ClientsHandler.onData host seq data st),
     ClientsHandler.events (ClientsHandler.onData host seq data st)).
Proof.
  intros H. rewrite onData_run.
  unfold ClientsHandler.final, ClientsHandler.events. cbn [fst snd].
  unfold ClientsHandler.onData_exn, ClientsHandler.handleData_exn,
    ClientsHandler.sendImageResponse_exn, ClientsHandler.answer,
    ClientsHandler.payload, ClientsHandler.requestedPath in *.
  unfold ClientsHandler.bindT, ClientsHandler.lift,
    ClientsHandler.logBinaryPacketHeader, ClientsHandler.logPacketDetails,
    ClientsHandler.emit.
  destruct (ClientsHandler.existsSync host _) eqn:E.
  - rewrite (H eq_refl). reflexivity.
  - cbn. rewrite app_nil_r. reflexivity.
Qed.




(* ================================================================== *)
(** * More on the server's answers *)
(* ================================================================== *)

Lemma JS_length_app {A} (a b : list A) :
  JS.length (a ++ b) = JS.length a + JS.length b.
Proof. unfold JS.length. rewrite length_app. lia. Qed.

Lemma JS_length_nonneg {A} (a : list A) : 0 <= JS.length a.
Proof. unfold JS.length. lia. Qed.

Lemma slice_from_behind_header (h d : Buffer) :
  JS.length h = 12 -> slice_from (h ++ d) 12 = d.
Proof.
  intros L. unfold slice_from, JS.length in *. rewrite skipn_app.
  rewrite skipn_all2 by lia.
  replace (Z.to_nat 12 - List.length h)%nat with 0%nat by lia.
  reflexivity.
Qed.

Section SentPacket.
Import ClientsHandler.

Variable host : Host.

Lemma answer_type st data :
  ITPResponse.type (answer host st data)
  = if existsSync host (requestedPath host data) then 1 else 2.
Proof.
  unfold ClientsHandler.answer. destruct (existsSync _ _); reflexivity.
Qed.

Lemma answer_size st data :
  ITPResponse.size (answer host st data) = JS.length (payload host data).
Proof.
  unfold ClientsHandler.answer, ClientsHandler.payload.
  destruct (existsSync _ _); reflexivity.
Qed.

(** The packet sent for a request, field by field. *)
Lemma sent_length st data :
  JS.length
    (ITPResponse.assemblePacket (answer host st data) ++ payload host data)
  = 12 + JS.length (payload host data).
Proof.
  destruct (assemblePacket_fields (answer host st data))
    as (L & F0 & F4 & F6 & F32 & F64).
  cbv zeta in L, F0, F4, F6, F32, F64.
  rewrite JS_length_app, L. reflexivity.
Qed.

Lemma sent_payload st data :
  slice_from
    (ITPResponse.assemblePacket (answer host st data) ++ payload host data) 12
  = payload host data.
Proof.
  destruct (assemblePacket_fields (answer host st data))
    as (L & F0 & F4 & F6 & F32 & F64).
  cbv zeta in L, F0, F4, F6, F32, F64.
  apply slice_from_behind_header. exact L.
Qed.

Lemma sent_version st data :
  field (ITPResponse.assemblePacket (answer host st data) ++ payload host data) 0 4
  = field data 0 4.
Proof.
  destruct (assemblePacket_fields (answer host st data))
    as (L & F0 & F4 & F6 & F32 & F64).
  cbv zeta in L, F0, F4, F6, F32, F64.
  rewrite (sent_field host st data 0 4) by lia.
  rewrite F0, answer_version, extractDataBits_unsigned by lia.
  pose proof (field_range data 0 4).
  rewrite Z.abs_eq, Z.mod_small; lia.
Qed.

Lemma sent_type st data :
  field (ITPResponse.assemblePacket (answer host st data) ++ payload host data) 4 2
  = if existsSync host (requestedPath host data) then 1 else 2.
Proof.
  destruct (assemblePacket_fields (answer host st data))
    as (L & F0 & F4 & F6 & F32 & F64).
  cbv zeta in L, F0, F4, F6, F32, F64.
  rewrite (sent_field host st data 4 2) by lia.
  rewrite F4, answer_type. destruct (existsSync _ _); reflexivity.
Qed.

Lemma sent_sequence st data :
  field (ITPResponse.assemblePacket (answer host st data) ++ payload host data) 6 26
  = Z.abs (Singleton.next (Singleton.sequenceNum (singleton st))) mod 2 ^ 26.
Proof.
  destruct (assemblePacket_fields (answer host st data))
    as (L & F0 & F4 & F6 & F32 & F64).
  cbv zeta in L, F0, F4, F6, F32, F64.
  rewrite (sent_field host st data 6 26) by lia.
  rewrite F6, answer_sequence. reflexivity.
Qed.

Lemma sent_time st data :
  field (ITPResponse.assemblePacket (answer host st data) ++ payload host data) 32 32
  = Z.abs (toInt32 (field data 32 32)) mod 2 ^ 32.
Proof.
  destruct (assemblePacket_fields (answer host st data))
    as (L & F0 & F4 & F6 & F32 & F64).
  cbv zeta in L, F0, F4, F6, F32, F64.
  rewrite (sent_field host st data 32 32) by lia.
  rewrite F32, answer_time, extractDataBits_field by lia. reflexivity.
Qed.

Lemma sent_size st data :
  field (ITPResponse.assemblePacket (answer host st data) ++ payload host data) 64 32
  = JS.length (payload host data) mod 2 ^ 32.
Proof.
  destruct (assemblePacket_fields (answer host st data))
    as (L & F0 & F4 & F6 & F32 & F64).
  cbv zeta in L, F0, F4, F6, F32, F64.
  rewrite (sent_field host st data 64 32) by lia.
  rewrite F64, answer_size.
  rewrite Z.abs_eq by apply JS_length_nonneg. reflexivity.
Qed.

Lemma sent_packet_fields st data :
  let p := ITPResponse.assemblePacket (answer host st data) ++ payload host data in
  JS.length p = 12 + JS.length (payload host data)
  /\ slice_from p 12 = payload host data
  /\ field p 0 4 = field data 0 4
  /\ field p 4 2 = (if existsSync host (requestedPath host data) then 1 else 2)
  /\ field p 6 26
     = Z.abs (Singleton.next (Singleton.sequenceNum (singleton st))) mod 2 ^ 26
  /\ field p 32 32 = Z.abs (toInt32 (field data 32 32)) mod 2 ^ 32
  /\ field p 64 32 = JS.length (payload host data) mod 2 ^ 32.
Proof.
  intros p.
  exact (conj (sent_length st data)
        (conj (sent_payload st data)
        (conj (sent_version st data)
        (conj (sent_type st data)
        (conj (sent_sequence st data)
        (conj (sent_time st data) (sent_size st data))))))).
Qed.

End SentPacket.

(** What [onData] leaves when it runs to its end. *)
Lemma answered_packet (host : ClientsHandler.Host) (seq : Z) (data : Buffer)
  (st : ClientsHandler.ServerState) :
  1 <= Singleton.sequenceNum (ClientsHandler.singleton st) <= 999 ->
  exists packet,
    ClientsHandler.events (ClientsHandler.onData host seq data st)
    = [ClientsHandler.LogPacket data;
       ClientsHandler.LogRequest seq (ClientsHandler.extractDetails data)
         (ClientsHandler.mapTypeToExtension
            (ClientsHandler.imageType (ClientsHandler.extractDetails data)))]
      ++ [ClientsHandler.SockWrite packet; ClientsHandler.SockEnd]
    /\ 12 <= JS.length packet
    /\ field packet 0 4 = field data 0 4
    /\ (field packet 4 2 = 1 \/ field packet 4 2 = 2)
    /\ 1 <= field packet 6 26 <= 999
    /\ Singleton.sequenceNum
         (ClientsHandler.singleton
            (ClientsHandler.final (ClientsHandler.onData host seq data st)))
       = field packet 6 26
    /\ Singleton.timeMark
         (ClientsHandler.singleton
            (ClientsHandler.final (ClientsHandler.onData host seq data st)))
       = Singleton.timeMark (ClientsHandler.singleton st).
Proof.
  intros Hs. rewrite onData_run.
  destruct (sent_packet_fields host st data) as (L & _ & F0 & F4 & F6 & _).
  cbv zeta in L, F0, F4, F6.
  pose proof (next_range (Singleton.sequenceNum (ClientsHandler.singleton st))) as R.
  rewrite Z.abs_eq, Z.mod_small in F6 by lia.
  eexists. split; [reflexivity|].
  split; [rewrite L; pose proof (JS_length_nonneg (ClientsHandler.payload host data));
          lia|].
  split; [exact F0|]. split.
  { rewrite F4. destruct (ClientsHandler.existsSync _ _); auto. }
  split; [rewrite F6; lia|].
  split; [rewrite F6; reflexivity | reflexivity].
Qed.

(** X13.  The answer to a request whose file exists and can be read.
    The listener writes to the socket once, before it ends the
    connection: a 12-byte header whose type field is 1 and whose size
    field is the length of the file, followed by the bytes of the file,
    all of them and nothing else.  An empty file gives the 12-byte
    header alone, with type 1 and size 0. *)
Theorem X13_found_answered_with_file : forall host throws seq data st,
  let path := ClientsHandler.requestedPath host data in
  let file := ClientsHandler.readFileSync host path in
  ClientsHandler.existsSync host path = true ->
  throws path = false ->
  JS.length file < 2 ^ 32 ->
  let r := ClientsHandler.onData_exn host throws seq data st in
  exists header,
    ClientsHandler.result r = Some tt
    /\ ClientsHandler.events r
       = [ClientsHandler.LogPacket data;
          ClientsHandler.LogRequest seq (ClientsHandler.extractDetails data)
            (ClientsHandler.mapTypeToExtension
               (ClientsHandler.imageType (ClientsHandler.extractDetails data)));
          ClientsHandler.SockWrite (header ++ file);
          ClientsHandler.SockEnd]
    /\ JS.length header = 12
    /\ field (header ++ file) 4 2 = 1
    /\ field (header ++ file) 64 32 = JS.length file
    /\ slice_from (header ++ file) 12 = file.
Proof.
  intros host throws seq data st path file Hex Hth Hlen r. unfold r.
  rewrite (onData_exn_returns host throws seq data st (fun _ => Hth)).
  unfold ClientsHandler.result, ClientsHandler.events at 1. cbn [fst snd].
  rewrite onData_run.
  unfold ClientsHandler.events. cbn [snd].
  destruct (sent_packet_fields host st data) as (L & Sl & _ & F4 & _ & _ & F64).
  cbv zeta in L, Sl, F4, F64.
  assert (P : ClientsHandler.payload host data = file)
    by (unfold ClientsHandler.payload; fold path; rewrite Hex; reflexivity).
  fold path in F4. rewrite Hex in F4. rewrite P in *.
  exists (ITPResponse.assemblePacket (ClientsHandler.answer host st data)).
  split; [reflexivity|]. split; [reflexivity|].
  split.
  { destruct (assemblePacket_fields (ClientsHandler.answer host st data))
      as [Lh _]. exact Lh. }
  split; [exact F4|]. split; [|exact Sl].
  rewrite F64. apply Z.mod_small.
  pose proof (JS_length_nonneg file). lia.
Qed.

Lemma X13_found_answered_with_file_witness :
  let data := [112; 0; 0; 0; 0; 0; 0; 5; 80; 0; 0; 1; 97] in
  let st := ClientsHandler.mkServerState (Singleton.mkState 1 1)
                                         ITPResponse.responseDetails0 in
  let r := ClientsHandler.onData_exn ClientsHandler.any_image (fun _ => false)
                                     1 data st in
  exists header,
    ClientsHandler.result r = Some tt
    /\ ClientsHandler.events r
       = [ClientsHandler.LogPacket data;
          ClientsHandler.LogRequest 1 (ClientsHandler.extractDetails data)
            (ClientsHandler.mapTypeToExtension
               (ClientsHandler.imageType (ClientsHandler.extractDetails data)));
          ClientsHandler.SockWrite (header ++ [1; 2; 3]);
          ClientsHandler.SockEnd]
    /\ JS.length header = 12
    /\ field (header ++ [1; 2; 3]) 4 2 = 1
    /\ field (header ++ [1; 2; 3]) 64 32 = 3
    /\ slice_from (header ++ [1; 2; 3]) 12 = [1; 2; 3].
Proof.
  intros data st.
  apply (X13_found_answered_with_file ClientsHandler.any_image (fun _ => false)
           1 data st).
  - reflexivity.
  - reflexivity.
  - vm_compute. reflexivity.
Defined.

(** X14.  A buffer is answered in full or not at all.  Whatever
    arrives, short, empty or ill-formed, the listener does one of two
    things.  When the path the buffer resolves to exists and reading it
    throws, the listener is left after its two log lines: nothing is
    written, the connection is not ended, and the counter and the
    timestamp are as they were.  In every other case it writes one
    packet of at least 12 bytes and then ends the connection; the
    packet carries the version field of what arrived, type 1 or 2 and a
    sequence number in 1..999, the counter has advanced to that number
    and the timestamp is untouched. *)
Theorem X14_answered_in_full_or_not_at_all : forall host throws seq data st,
  1 <= Singleton.sequenceNum (ClientsHandler.singleton st) <= 999 ->
  let path := ClientsHandler.requestedPath host data in
  let r := ClientsHandler.onData_exn host throws seq data st in
  let logs :=
    [ClientsHandler.LogPacket data;
     ClientsHandler.LogRequest seq (ClientsHandler.extractDetails data)
       (ClientsHandler.mapTypeToExtension
          (ClientsHandler.imageType (ClientsHandler.extractDetails data)))] in
  if ClientsHandler.existsSync host path && throws path
  then ClientsHandler.result r = None
       /\ ClientsHandler.events r = logs
       /\ ClientsHandler.final r = st
  else ClientsHandler.result r = Some tt
       /\ exists packet,
            ClientsHandler.events r
            = logs ++ [ClientsHandler.SockWrite packet; ClientsHandler.SockEnd]
            /\ 12 <= JS.length packet
            /\ field packet 0 4 = field data 0 4
            /\ (field packet 4 2 = 1 \/ field packet 4 2 = 2)
            /\ 1 <= field packet 6 26 <= 999
            /\ Singleton.sequenceNum
                 (ClientsHandler.singleton (ClientsHandler.final r))
               = field packet 6 26
            /\ Singleton.timeMark
                 (ClientsHandler.singleton (ClientsHandler.final r))
               = Singleton.timeMark (ClientsHandler.singleton st).
Proof.
  intros host throws seq data st Hs path r logs. unfold r, logs.
  destruct (ClientsHandler.existsSync host path) eqn:He;
    [destruct (throws path) eqn:Ht|]; cbn [andb].
  - rewrite (onData_exn_throws host throws seq data st He Ht).
    repeat split.
  - rewrite (onData_exn_returns host throws seq data st (fun _ => Ht)).
    unfold ClientsHandler.result, ClientsHandler.events at 1,
      ClientsHandler.final at 1 2. cbn [fst snd].
    split; [reflexivity|].
    apply answered_packet. exact Hs.
  - rewrite (onData_exn_returns host throws seq data st).
    2:{ fold path. rewrite He. discriminate. }
    unfold ClientsHandler.result, ClientsHandler.events at 1,
      ClientsHandler.final at 1 2. cbn [fst snd].
    split; [reflexivity|].
    apply answered_packet. exact Hs.
Qed.

Lemma X14_answered_in_full_or_not_at_all_witness :
  let st := ClientsHandler.mkServerState (Singleton.mkState 999 7)
                                         ITPResponse.responseDetails0 in
  let r := ClientsHandler.onData_exn ClientsHandler.any_image (fun _ => true)
                                     1 [] st in
  ClientsHandler.result r = None
  /\ ClientsHandler.events r
     = [ClientsHandler.LogPacket [];
        ClientsHandler.LogRequest 1 (ClientsHandler.extractDetails [])
          (ClientsHandler.mapTypeToExtension
             (ClientsHandler.imageType (ClientsHandler.extractDetails [])))]
  /\ ClientsHandler.final r = st.
Proof.
  intros st.
  apply (X14_answered_in_full_or_not_at_all ClientsHandler.any_image
           (fun _ => true) 1 [] st).
  cbn. lia.
Defined.

(* ================================================================== *)
(** * A whole exchange *)
(* ================================================================== *)




(* ================================================================== *)
(** * The bit dumps on the console *)
(* ================================================================== *)

Lemma bytes_checked :
  forallb (fun n =>
             if list_eq_dec Z.eq_dec
                  (padStart (toString2 (Z.of_nat n)) 8 ch_0)
                  (byte_digits (Z.of_nat n))
             then true else false)
          (seq 0 256) = true.
Proof. vm_compute. reflexivity. Qed.

(** A byte is printed as its eight binary digits. *)
Lemma padStart_byte x :
  0 <= x < 256 -> padStart (toString2 x) 8 ch_0 = byte_digits x.
Proof.
  intros H. pose proof bytes_checked as C.
  rewrite forallb_forall in C. specialize (C (Z.to_nat x)).
  rewrite Z2Nat.id in C by lia.
  destruct (list_eq_dec Z.eq_dec _ _) as [E|E]; [exact E|].
  assert (false = true) by (apply C, in_seq; lia). discriminate.
Qed.

Lemma filter_all {A} (f : A -> bool) l :
  (forall c, In c l -> f c = true) -> filter f l = l.
Proof.
  induction l as [|a t IH]; intros H; [reflexivity|].
  cbn [filter]. rewrite (H a) by (left; reflexivity).
  f_equal. apply IH. intros c Hc. apply H. right. exact Hc.
Qed.

Lemma filter_byte_digits x : filter is_digit01 (byte_digits x) = byte_digits x.
Proof.
  apply filter_all. intros c Hc. unfold byte_digits in Hc.
  apply in_map_iff in Hc. destruct Hc as (k & <- & _).
  destruct (Z.testbit x k); reflexivity.
Qed.

Lemma filter_printed_byte x tail :
  0 <= x < 256 ->
  filter is_digit01 (padStart (toString2 x) 8 ch_0 ++ [32] ++ tail)
  = byte_digits x ++ filter is_digit01 tail.
Proof.
  intros H. rewrite padStart_byte by assumption.
  rewrite filter_app, filter_byte_digits. reflexivity.
Qed.

Lemma logPacketBits_loop_digits bytes : forall i,
  wf bytes ->
  filter is_digit01 (ImageClient.logPacketBits_loop bytes i) = bit_digits bytes.
Proof.
  induction bytes as [|x t IH]; intros i H; [reflexivity|].
  inversion H as [|? ? Hx Ht]; subst.
  cbn [ImageClient.logPacketBits_loop bit_digits flat_map].
  unfold ImageClient.binaryString.
  change ([32] ++
          padStart (toString2 x) 8 ch_0 ++
          [32] ++
          (if rem (i + 1) 4 =? 0 then [10] else []) ++
          ImageClient.logPacketBits_loop t (i + 1))
    with (32 :: (padStart (toString2 x) 8 ch_0 ++
                 [32] ++
                 ((if rem (i + 1) 4 =? 0 then [10] else []) ++
                  ImageClient.logPacketBits_loop t (i + 1)))).
  cbn [filter]. change (is_digit01 32) with false. cbv iota.
  rewrite filter_printed_byte by assumption.
  rewrite filter_app, (IH (i + 1) Ht).
  destruct (rem (i + 1) 4 =? 0); reflexivity.
Qed.

Lemma row_piece (packet : Buffer) k j :
  (if Z.of_nat k + Z.of_nat j <? JS.length packet
   then padStart (toString2 (num (get packet (Z.of_nat k + Z.of_nat j)))) 8 ch_0
          ++ [32]
   else [])
  = match nth_error (skipn k packet) j with
    | Some x => padStart (toString2 x) 8 ch_0 ++ [32]
    | None => []
    end.
Proof.
  rewrite nth_error_skipn. unfold get, index, JS.length.
  destruct (Z.ltb_spec (Z.of_nat k + Z.of_nat j) (Z.of_nat (List.length packet)))
    as [L|G].
  - destruct (Z.ltb_spec (Z.of_nat k + Z.of_nat j) 0); [lia|].
    replace (Z.to_nat (Z.of_nat k + Z.of_nat j)) with (k + j)%nat by lia.
    destruct (nth_error packet (k + j)) as [x|] eqn:E; [reflexivity|].
    apply nth_error_None in E. lia.
  - destruct (nth_error packet (k + j)) as [x|] eqn:E; [|reflexivity].
    assert (k + j < List.length packet)%nat
      by (apply nth_error_Some; congruence).
    lia.
Qed.

Lemma row_digits (packet : Buffer) k :
  wf packet ->
  filter is_digit01 (ClientsHandler.logBinaryPacketHeader_row packet (Z.of_nat k))
  = bit_digits (firstn 4 (skipn k packet)).
Proof.
  intros H. unfold ClientsHandler.logBinaryPacketHeader_row.
  cbn [flat_map].
  pose proof (row_piece packet k 0) as P0.
  pose proof (row_piece packet k 1) as P1.
  pose proof (row_piece packet k 2) as P2.
  pose proof (row_piece packet k 3) as P3.
  cbn [Z.of_nat Pos.of_succ_nat Pos.succ] in P0, P1, P2, P3.
  rewrite P0, P1, P2, P3. clear P0 P1 P2 P3.
  assert (W : wf (skipn k packet)).
  { unfold wf in *. rewrite Forall_forall in *. intros x Hx.
    apply H. rewrite <- (firstn_skipn k packet). apply in_or_app. now right. }
  destruct (skipn k packet) as [|a [|b [|c [|d rest]]]]; cbn [nth_error firstn].
  - reflexivity.
  - inversion W; subst. rewrite <- !app_assoc.
    rewrite filter_printed_byte by assumption. reflexivity.
  - inversion W as [|? ? Ha W1]; subst. inversion W1; subst.
    rewrite <- !app_assoc.
    rewrite !filter_printed_byte by assumption. reflexivity.
  - inversion W as [|? ? Ha W1]; subst. inversion W1 as [|? ? Hb W2]; subst.
    inversion W2; subst. rewrite <- !app_assoc.
    rewrite !filter_printed_byte by assumption. reflexivity.
  - inversion W as [|? ? Ha W1]; subst. inversion W1 as [|? ? Hb W2]; subst.
    inversion W2 as [|? ? Hc W3]; subst. inversion W3; subst.
    rewrite <- !app_assoc.
    rewrite !filter_printed_byte by assumption. reflexivity.
Qed.

Lemma bit_digits_app a b : bit_digits (a ++ b) = bit_digits a ++ bit_digits b.
Proof. unfold bit_digits. apply flat_map_app. Qed.

Lemma logBinaryPacketHeader_loop_digits (packet : Buffer) fuel : forall k,
  wf packet ->
  (List.length packet - k <= 4 * fuel)%nat ->
  filter is_digit01
         (ClientsHandler.logBinaryPacketHeader_loop fuel packet (Z.of_nat k))
  = bit_digits (skipn k packet).
Proof.
  induction fuel as [|f IH]; intros k H Hf.
  - cbn [ClientsHandler.logBinaryPacketHeader_loop].
    rewrite skipn_all2 by lia. reflexivity.
  - cbn [ClientsHandler.logBinaryPacketHeader_loop]. unfold JS.length.
    destruct (Z.ltb_spec (Z.of_nat k) (Z.of_nat (List.length packet))) as [L|G].
    + rewrite filter_app, row_digits by assumption.
      replace (Z.of_nat k + 4) with (Z.of_nat (4 + k)) by lia.
      rewrite IH by (try assumption; lia).
      rewrite <- bit_digits_app, <- skipn_skipn, firstn_skipn. reflexivity.
    + rewrite skipn_all2 by lia. reflexivity.
Qed.

(** X16.  The two bit dumps show the packet's bits, all of them, in
    order, and no other binary digit.  Reading the digits 0 and 1 off
    what [logPacketBits] prints on the client, or off what
    [logBinaryPacketHeader] prints on the server, gives the eight bits
    of each byte of the packet, most significant first, byte after
    byte. *)
Theorem X16_dumps_show_the_bits : forall packet,
  wf packet ->
  filter is_digit01 (ImageClient.logPacketBits_text packet) = bit_digits packet
  /\ filter is_digit01 (ClientsHandler.logBinaryPacketHeader_text packet)
     = bit_digits packet.
Proof.
  intros packet H. split.
  - unfold ImageClient.logPacketBits_text.
    rewrite !filter_app, logPacketBits_loop_digits by assumption.
    change (filter is_digit01 ImageClient.received_header) with (@nil Z).
    change (filter is_digit01 [10]) with (@nil Z).
    destruct (rem (JS.length packet) 4 =? 0); cbn [app filter];
      [|change (is_digit01 10) with false; cbv iota];
      now rewrite app_nil_r.
  - unfold ClientsHandler.logBinaryPacketHeader_text.
    rewrite !filter_app.
    change (filter is_digit01 ClientsHandler.received_title) with (@nil Z).
    change (filter is_digit01 [10; 10]) with (@nil Z).
    change (filter is_digit01 [10]) with (@nil Z).
    cbn [app].
    pose proof (logBinaryPacketHeader_loop_digits
                  packet (List.length packet) 0 H) as Q.
    cbn [Z.of_nat skipn] in Q. rewrite Q by lia. reflexivity.
Qed.

Lemma X16_dumps_show_the_bits_witness :
  filter is_digit01 (ImageClient.logPacketBits_text [120; 0; 3; 255; 1])
  = bit_digits [120; 0; 3; 255; 1]
  /\ filter is_digit01 (ClientsHandler.logBinaryPacketHeader_text [120; 0; 3; 255; 1])
     = bit_digits [120; 0; 3; 255; 1].
Proof.
  apply (X16_dumps_show_the_bits [120; 0; 3; 255; 1]).
  repeat constructor; lia.
Defined.
